(** * CalibrationLib: typed store accessor, JSON codec and encryption wrapper

    A shallow embedding of [CalibrationLib.cpp] / [CalibrationLib.h].

    The class keeps its state in eight private members; every method is a
    function from the state before the call to the result and the state
    after it.  The three external collaborators of the class (the ESP32
    [Preferences] store, ArduinoJson and the mbedtls primitives) are not
    part of the library: they are interfaces (type classes) here, and a
    small reference implementation of each is given further down so that
    the methods can be run on concrete inputs. *)

From Stdlib Require Import ZArith List String Ascii Bool Lia DecimalString.
From Stdlib Require Import Strings.Byte.
From Stdlib Require Import Floats.SpecFloat.
Import ListNotations.

Set Warnings "-register-all".

Local Open Scope string_scope.
Local Open Scope list_scope.
Local Open Scope Z_scope.

(** ** C-level data *)

(** A C string pointer: [None] is the null pointer. *)
Definition cstr := option string.

(** [strlen] of a non-null C string. *)
Definition strlen (s : string) : Z := Z.of_nat (String.length s).

(** Conversion of a C string to an Arduino [String]: the [String] built
    from a null pointer is the empty string. *)
Definition String_of_cstr (c : cstr) : string :=
  match c with Some s => s | None => EmptyString end.

(** [size_t] is 32 bits wide on the ESP32. *)
Definition size_t_max : Z := 2 ^ 32.
Definition wrap_size_t (z : Z) : Z := z mod size_t_max.

(** [int] / [int32_t]. *)
Definition INT_MIN : Z := - 2 ^ 31.
Definition INT_MAX : Z := 2 ^ 31 - 1.

(** A byte buffer reached through a pointer: the bytes of the allocation the
    pointer designates, or [None] for the null pointer. *)
Definition buffer := option (list byte).

Definition byte_of_Z (z : Z) : byte :=
  match Byte.of_N (Z.to_N (z mod 256)) with
  | Some b => b
  | None => x00
  end.

Definition Z_of_byte (b : byte) : Z := Z.of_N (Byte.to_N b).

(** The bytes of a C string, as the hash update reads them. *)
Definition bytes_of_string (s : string) : list byte :=
  List.map byte_of_ascii (list_ascii_of_string s).

(** [float] is IEEE-754 binary32, [double] binary64. *)
Definition float32 := spec_float.
Definition double := spec_float.

Definition float_of_double (d : double) : float32 :=
  match d with
  | S754_finite s m e => binary_normalize 24 128 (cond_Zopp s (Zpos m)) e s
  | _ => d
  end.

Definition double_of_float (f : float32) : double :=
  match f with
  | S754_finite s m e => binary_normalize 53 1024 (cond_Zopp s (Zpos m)) e s
  | _ => f
  end.

Definition float_of_int (z : Z) : float32 := binary_normalize 24 128 z 0 false.

Definition NAN : float32 := S754_nan.

(** A call that may leave the bounds of a buffer has no defined result. *)
Inductive outcome (A : Type) : Type :=
| Returns (a : A)
| OutOfBounds.
Arguments Returns {A} a.
Arguments OutOfBounds {A}.

(** ** Error codes and debug levels (CalibrationLib.h) *)

Inductive CalibrationError : Set :=
| CAL_OK
| CAL_NOT_INITIALIZED
| CAL_INVALID_PARAM
| CAL_WRITE_ERROR
| CAL_READ_ERROR
| CAL_MEMORY_ERROR
| CAL_ENCRYPTION_ERROR.

Definition CalibrationError_code (e : CalibrationError) : Z :=
  match e with
  | CAL_OK => 0
  | CAL_NOT_INITIALIZED => -1
  | CAL_INVALID_PARAM => -2
  | CAL_WRITE_ERROR => -3
  | CAL_READ_ERROR => -4
  | CAL_MEMORY_ERROR => -5
  | CAL_ENCRYPTION_ERROR => -6
  end.

Inductive DebugLevel : Set :=
| DEBUG_NONE
| DEBUG_ERROR
| DEBUG_INFO
| DEBUG_VERBOSE.

Definition DebugLevel_code (l : DebugLevel) : Z :=
  match l with
  | DEBUG_NONE => 0
  | DEBUG_ERROR => 1
  | DEBUG_INFO => 2
  | DEBUG_VERBOSE => 3
  end.

Definition CalibrationError_eqb (a b : CalibrationError) : bool :=
  CalibrationError_code a =? CalibrationError_code b.

(** ** The persistent store, as the library consumes it

    [Preferences] is the platform's namespace-scoped key-value store.  The
    library calls exactly these members.  Writes return the number of bytes
    written ([size_t], 0 on failure); reads take the value to fall back on. *)
Class PreferencesAPI (P : Type) : Type := {
  pref_begin : P -> cstr -> bool -> bool * P;
  pref_end : P -> P;
  pref_clear : P -> bool * P;
  pref_remove : P -> cstr -> bool * P;
  putInt : P -> cstr -> Z -> Z * P;
  putFloat : P -> cstr -> float32 -> Z * P;
  putString : P -> cstr -> cstr -> Z * P;
  putULong : P -> cstr -> Z -> Z * P;
  getInt : P -> cstr -> Z -> Z;
  getFloat : P -> cstr -> float32 -> float32;
  getString : P -> cstr -> string -> string;
  getULong : P -> cstr -> Z -> Z;
  isKey : P -> cstr -> bool;
  freeEntries : P -> Z;
  key : P -> Z -> string;
  getType : P -> cstr -> string
}.

(** ** JSON documents (ArduinoJson) *)

Inductive JsonVariant : Type :=
| JNull
| JBool (b : bool)
| JInt (z : Z)
| JFloat (d : double)
| JString (s : string)
| JArray (elems : list JsonVariant)
| JObject (members : list (string * JsonVariant)).

Definition JsonObject := list (string * JsonVariant).

(** [is<int>()], [is<float>()], [is<const char *>()] and the matching
    [as<T>()] conversions. *)
Definition is_int (v : JsonVariant) : bool :=
  match v with
  | JInt z => (INT_MIN <=? z) && (z <=? INT_MAX)
  | _ => false
  end.

Definition is_float (v : JsonVariant) : bool :=
  match v with
  | JInt _ | JFloat _ => true
  | _ => false
  end.

Definition is_cstr (v : JsonVariant) : bool :=
  match v with
  | JString _ => true
  | _ => false
  end.

Definition as_int (v : JsonVariant) : Z :=
  match v with
  | JInt z => if (INT_MIN <=? z) && (z <=? INT_MAX) then z else 0
  | _ => 0
  end.

Definition as_float (v : JsonVariant) : float32 :=
  match v with
  | JInt z => float_of_int z
  | JFloat d => float_of_double d
  | _ => S754_zero false
  end.

Definition as_cstr (v : JsonVariant) : cstr :=
  match v with
  | JString s => Some s
  | _ => None
  end.

(** [doc.as<JsonObject>()]: the members of the root when it is an object,
    the null object (no members) otherwise. *)
Definition as_JsonObject (v : JsonVariant) : JsonObject :=
  match v with
  | JObject ms => ms
  | _ => []
  end.

(** The text side of ArduinoJson and the capacity of a document's memory
    pool.  [serializeJson doc out] is the content of the [String] [out] after
    the call; [deserializeJson cap text] is [None] on a
    [DeserializationError]. *)
Class ArduinoJsonAPI : Type := {
  memoryPool_fits : Z -> JsonObject -> bool;
  serializeJson : JsonVariant -> string -> string;
  deserializeJson : Z -> string -> option JsonVariant
}.

Fixpoint member_upsert (root : JsonObject) (k : string) (v : JsonVariant)
  : JsonObject :=
  match root with
  | [] => [(k, v)]
  | (k', v') :: rest =>
      if String.eqb k' k then (k', v) :: rest
      else (k', v') :: member_upsert rest k v
  end.

(** [root[key] = value] on a document of [cap] bytes: the member is stored
    when the pool has room for it and silently dropped otherwise. *)
Definition member_assign `{ArduinoJsonAPI} (cap : Z) (root : JsonObject)
  (k : string) (v : JsonVariant) : JsonObject :=
  let root' := member_upsert root k v in
  if memoryPool_fits cap root' then root' else root.

(** ** The mbedtls primitives *)

Class MbedtlsAPI : Type := {
  mbedtls_sha256 : list byte -> list byte;
  mbedtls_aes_encrypt : list byte -> list byte -> list byte;
  mbedtls_aes_decrypt : list byte -> list byte -> list byte
}.

(** What the library relies on: digests are 32 bytes, a block is mapped to a
    block, and decryption under a key inverts encryption under it. *)
Record MbedtlsLaws `{MbedtlsAPI} : Prop := {
  sha256_length : forall m, List.length (mbedtls_sha256 m) = 32%nat;
  aes_encrypt_length :
    forall k b, List.length b = 16%nat ->
                List.length (mbedtls_aes_encrypt k b) = 16%nat;
  aes_decrypt_length :
    forall k b, List.length b = 16%nat ->
                List.length (mbedtls_aes_decrypt k b) = 16%nat;
  aes_decrypt_encrypt :
    forall k b, List.length b = 16%nat ->
                mbedtls_aes_decrypt k (mbedtls_aes_encrypt k b) = b
}.
Arguments MbedtlsLaws _ : clear implicits.

(** ** The class *)

Section CalibrationLibClass.

Context {P : Type} `{PreferencesAPI P} `{ArduinoJsonAPI} `{MbedtlsAPI}.

(** The private members.  [_debugOutput] points to a [Print] sink which is
    never null (the constructor installs [&Serial] and [setDebugOutput] falls
    back to it); the sink is represented by the lines printed to it so far. *)
Record CalibrationLib : Type := {
  _encryptionKey : list byte;
  _preferences : P;
  _initialized : bool;
  _debugLevel : DebugLevel;
  _debugOutput : list string;
  _lastError : CalibrationError;
  _encryptionEnabled : bool;
  _batchMode : bool
}.

Definition with_encryptionKey (s : CalibrationLib) (k : list byte) :=
  {| _encryptionKey := k; _preferences := _preferences s;
     _initialized := _initialized s; _debugLevel := _debugLevel s;
     _debugOutput := _debugOutput s; _lastError := _lastError s;
     _encryptionEnabled := _encryptionEnabled s; _batchMode := _batchMode s |}.

Definition with_preferences (s : CalibrationLib) (p : P) :=
  {| _encryptionKey := _encryptionKey s; _preferences := p;
     _initialized := _initialized s; _debugLevel := _debugLevel s;
     _debugOutput := _debugOutput s; _lastError := _lastError s;
     _encryptionEnabled := _encryptionEnabled s; _batchMode := _batchMode s |}.

Definition with_initialized (s : CalibrationLib) (b : bool) :=
  {| _encryptionKey := _encryptionKey s; _preferences := _preferences s;
     _initialized := b; _debugLevel := _debugLevel s;
     _debugOutput := _debugOutput s; _lastError := _lastError s;
     _encryptionEnabled := _encryptionEnabled s; _batchMode := _batchMode s |}.

Definition with_debugLevel (s : CalibrationLib) (l : DebugLevel) :=
  {| _encryptionKey := _encryptionKey s; _preferences := _preferences s;
     _initialized := _initialized s; _debugLevel := l;
     _debugOutput := _debugOutput s; _lastError := _lastError s;
     _encryptionEnabled := _encryptionEnabled s; _batchMode := _batchMode s |}.

Definition with_debugOutput (s : CalibrationLib) (o : list string) :=
  {| _encryptionKey := _encryptionKey s; _preferences := _preferences s;
     _initialized := _initialized s; _debugLevel := _debugLevel s;
     _debugOutput := o; _lastError := _lastError s;
     _encryptionEnabled := _encryptionEnabled s; _batchMode := _batchMode s |}.

Definition with_lastError (s : CalibrationLib) (e : CalibrationError) :=
  {| _encryptionKey := _encryptionKey s; _preferences := _preferences s;
     _initialized := _initialized s; _debugLevel := _debugLevel s;
     _debugOutput := _debugOutput s; _lastError := e;
     _encryptionEnabled := _encryptionEnabled s; _batchMode := _batchMode s |}.

Definition with_encryptionEnabled (s : CalibrationLib) (b : bool) :=
  {| _encryptionKey := _encryptionKey s; _preferences := _preferences s;
     _initialized := _initialized s; _debugLevel := _debugLevel s;
     _debugOutput := _debugOutput s; _lastError := _lastError s;
     _encryptionEnabled := b; _batchMode := _batchMode s |}.

Definition with_batchMode (s : CalibrationLib) (b : bool) :=
  {| _encryptionKey := _encryptionKey s; _preferences := _preferences s;
     _initialized := _initialized s; _debugLevel := _debugLevel s;
     _debugOutput := _debugOutput s; _lastError := _lastError s;
     _encryptionEnabled := _encryptionEnabled s; _batchMode := b |}.

(** The constructor.  It leaves [_encryptionKey] uninitialised and
    default-constructs [_preferences]: both are what the caller finds in
    memory and on the device, and are given here. *)
Definition CalibrationLib_new (key0 : list byte) (p0 : P) : CalibrationLib :=
  {| _encryptionKey := key0; _preferences := p0;
     _initialized := false; _debugLevel := DEBUG_NONE;
     _debugOutput := []; _lastError := CAL_OK;
     _encryptionEnabled := false; _batchMode := false |}.

(** *** Debug and logging *)

Definition setDebugLevel (s : CalibrationLib) (level : DebugLevel) :=
  with_debugLevel s level.

Definition getLastError (s : CalibrationLib) : CalibrationError :=
  _lastError s.

Definition getErrorString (error : CalibrationError) : string :=
  match error with
  | CAL_OK => "No error"
  | CAL_NOT_INITIALIZED => "Library not initialized"
  | CAL_INVALID_PARAM => "Invalid parameter"
  | CAL_WRITE_ERROR => "Write error"
  | CAL_READ_ERROR => "Read error"
  | CAL_MEMORY_ERROR => "Memory error"
  | CAL_ENCRYPTION_ERROR => "Encryption error"
  end.

(** [log level format ...]: [line] is the expanded format; [vsnprintf]
    keeps at most 255 characters of it. *)
Definition log (s : CalibrationLib) (level : DebugLevel) (line : string)
  : CalibrationLib :=
  if DebugLevel_code level <=? DebugLevel_code (_debugLevel s)
  then with_debugOutput s (_debugOutput s ++ [substring 0 255 line])
  else s.

Definition setError (s : CalibrationLib) (error : CalibrationError)
  : CalibrationLib :=
  let s := with_lastError s error in
  if negb (CalibrationError_eqb error CAL_OK)
  then log s DEBUG_ERROR (append "Error: " (getErrorString error))
  else s.

(** *** Batch operations *)

Definition batchBegin (s : CalibrationLib) : bool * CalibrationLib :=
  if negb (_initialized s) then (false, setError s CAL_NOT_INITIALIZED)
  else
    let s := with_batchMode s true in
    (true, log s DEBUG_INFO "Batch operation started").

Definition batchCommit (s : CalibrationLib) : bool * CalibrationLib :=
  if negb (_initialized s) || negb (_batchMode s)
  then (false, setError s CAL_NOT_INITIALIZED)
  else
    let s := with_batchMode s false in
    (true, log s DEBUG_INFO "Batch operation committed").

Definition batchRollback (s : CalibrationLib) : bool * CalibrationLib :=
  if negb (_initialized s) || negb (_batchMode s)
  then (false, setError s CAL_NOT_INITIALIZED)
  else
    let s := with_batchMode s false in
    (true, log s DEBUG_INFO "Batch operation rolled back").

(** *** Memory management *)

Definition getFreeSpace (s : CalibrationLib) : Z :=
  if _initialized s then freeEntries (_preferences s) else 0.

Definition getUsedSpace (s : CalibrationLib) : Z :=
  if _initialized s
  then wrap_size_t (freeEntries (_preferences s) - getFreeSpace s)
  else 0.

(** *** Opening and closing a namespace *)

Definition begin (s : CalibrationLib) (namespace_name : cstr)
  : bool * CalibrationLib :=
  match namespace_name with
  | None => (false, setError s CAL_INVALID_PARAM)
  | Some name =>
      let s :=
        if _initialized s
        then with_preferences s (pref_end (_preferences s))
        else s in
      let '(ok, p) := pref_begin (_preferences s) namespace_name false in
      let s := with_initialized (with_preferences s p) ok in
      if negb (_initialized s) then (false, setError s CAL_NOT_INITIALIZED)
      else
        (true, log s DEBUG_INFO (append "Initialized with namespace: " name))
  end.

Definition end_ (s : CalibrationLib) : CalibrationLib :=
  if _initialized s
  then with_initialized (with_preferences s (pref_end (_preferences s))) false
  else s.

(** *** Typed writes.  The [size_t] a [put] returns converts to [bool]. *)

Definition bool_of_size_t (n : Z) : bool := negb (n =? 0).

Definition setCalibrationValue_int (s : CalibrationLib) (key : cstr)
  (value : Z) : bool * CalibrationLib :=
  if negb (_initialized s) then (false, s)
  else
    let '(n, p) := putInt (_preferences s) key value in
    (bool_of_size_t n, with_preferences s p).

Definition setCalibrationValue_float (s : CalibrationLib) (key : cstr)
  (value : float32) : bool * CalibrationLib :=
  if negb (_initialized s) then (false, s)
  else
    let '(n, p) := putFloat (_preferences s) key value in
    (bool_of_size_t n, with_preferences s p).

Definition setCalibrationValue_cstr (s : CalibrationLib) (key : cstr)
  (value : cstr) : bool * CalibrationLib :=
  if negb (_initialized s) then (false, s)
  else
    let '(n, p) := putString (_preferences s) key value in
    (bool_of_size_t n, with_preferences s p).

(** *** Typed reads.  The result is the returned flag, the content of the
    reference parameter [value] after the call, and the state. *)

Definition getCalibrationValue_int (s : CalibrationLib) (key : cstr)
  (defaultValue : Z) : bool * Z * CalibrationLib :=
  if negb (_initialized s) then (false, defaultValue, s)
  else
    let value := getInt (_preferences s) key defaultValue in
    (isKey (_preferences s) key, value, s).

Definition getCalibrationValue_float (s : CalibrationLib) (key : cstr)
  (defaultValue : float32) : bool * float32 * CalibrationLib :=
  if negb (_initialized s) then (false, defaultValue, s)
  else
    let value := getFloat (_preferences s) key defaultValue in
    (isKey (_preferences s) key, value, s).

Definition getCalibrationValue_String (s : CalibrationLib) (key : cstr)
  (defaultValue : cstr) : bool * string * CalibrationLib :=
  if negb (_initialized s) then (false, String_of_cstr defaultValue, s)
  else
    let value :=
      getString (_preferences s) key (String_of_cstr defaultValue) in
    (isKey (_preferences s) key, value, s).

Definition hasCalibrationValue (s : CalibrationLib) (key : cstr) : bool :=
  if negb (_initialized s) then false else isKey (_preferences s) key.

Definition removeCalibrationValue (s : CalibrationLib) (key : cstr)
  : bool * CalibrationLib :=
  if negb (_initialized s) then (false, s)
  else
    let '(ok, p) := pref_remove (_preferences s) key in
    (ok, with_preferences s p).

Definition clearAllCalibrationValues (s : CalibrationLib)
  : bool * CalibrationLib :=
  if negb (_initialized s) then (false, s)
  else
    let '(ok, p) := pref_clear (_preferences s) in
    (ok, with_preferences s p).

(** *** JSON export and import *)

(** [StaticJsonDocument<512>] *)
Definition JSON_DOC_CAPACITY : Z := 512.

(** One turn of the export loop, at index [i]. *)
Definition export_entry (p : P) (root : JsonObject) (i : Z) : JsonObject :=
  let k := key p i in
  let type := getType p (Some k) in
  if String.eqb type "i" then
    member_assign JSON_DOC_CAPACITY root k (JInt (getInt p (Some k) 0))
  else if String.eqb type "f" then
    member_assign JSON_DOC_CAPACITY root k
      (JFloat (double_of_float (getFloat p (Some k) NAN)))
  else if String.eqb type "s" then
    member_assign JSON_DOC_CAPACITY root k
      (JString (getString p (Some k) EmptyString))
  else root.

(** The indices [0 <= i < bound] the loop runs through. *)
Definition loop_indices (bound : Z) : list Z :=
  List.map Z.of_nat (seq 0 (Z.to_nat bound)).

Definition exportToJson (s : CalibrationLib) (jsonString : string)
  : bool * string * CalibrationLib :=
  if negb (_initialized s) then (false, jsonString, s)
  else
    let p := _preferences s in
    let root := fold_left (export_entry p) (loop_indices (freeEntries p)) [] in
    (true, serializeJson (JObject root) jsonString, s).

(** One turn of the import loop, for the pair [kv]. *)
Definition import_pair (s : CalibrationLib) (kv : string * JsonVariant)
  : CalibrationLib :=
  let '(k, v) := kv in
  if is_int v then snd (setCalibrationValue_int s (Some k) (as_int v))
  else if is_float v then
    snd (setCalibrationValue_float s (Some k) (as_float v))
  else if is_cstr v then
    snd (setCalibrationValue_cstr s (Some k) (as_cstr v))
  else s.

Definition importFromJson (s : CalibrationLib) (jsonString : string)
  : bool * CalibrationLib :=
  if negb (_initialized s) then (false, s)
  else
    match deserializeJson JSON_DOC_CAPACITY jsonString with
    | None => (false, s)
    | Some doc => (true, fold_left import_pair (as_JsonObject doc) s)
    end.

(** *** Encryption *)

Definition enableEncryption (s : CalibrationLib) (key : cstr)
  : bool * CalibrationLib :=
  match key with
  | None => (false, setError s CAL_ENCRYPTION_ERROR)
  | Some k =>
      if strlen k <? 16 then (false, setError s CAL_ENCRYPTION_ERROR)
      else
        let derivedKey := mbedtls_sha256 (bytes_of_string k) in
        let s := with_encryptionKey s (firstn 32 derivedKey) in
        let s := with_encryptionEnabled s true in
        (true, log s DEBUG_INFO "Encryption enabled")
  end.

Definition disableEncryption (s : CalibrationLib) : bool * CalibrationLib :=
  if negb (_encryptionEnabled s) then (true, s)
  else
    let s := with_encryptionKey s (repeat x00 32) in
    let s := with_encryptionEnabled s false in
    (true, log s DEBUG_INFO "Encryption disabled").

(** [b[i]] for a [size_t] index: [None] outside the allocation. *)
Definition buffer_at (b : list byte) (i : Z) : option byte :=
  if (i <? 0) || (Z.of_nat (List.length b) <=? i) then None
  else nth_error b (Z.to_nat i).

(** Storing the 16-byte block [blk] at offset [i] of [dst]. *)
Definition write_block (dst : list byte) (i : nat) (blk : list byte)
  : list byte :=
  firstn i dst ++ blk ++ skipn (i + 16) dst.

(** [for (i = ...; ...; i += 16) f(src + i, dst + i)], [n] turns from offset
    [i]: every turn reads 16 bytes of [src] and writes 16 bytes of [dst];
    [None] when a turn leaves either allocation. *)
Fixpoint block_loop (f : list byte -> list byte) (n i : nat)
  (src dst : list byte) : option (list byte) :=
  match n with
  | O => Some dst
  | S n' =>
      if (i + 16 <=? List.length src)%nat && (i + 16 <=? List.length dst)%nat
      then block_loop f n' (i + 16)%nat src
             (write_block dst i (f (firstn 16 (skipn i src))))
      else None
  end.

(** The result is the returned flag, the output buffer and the reference
    parameter [encSize] after the call, and the state. *)
Definition encryptData (s : CalibrationLib) (data : buffer) (size : Z)
  (encrypted : buffer) (encSize : Z)
  : outcome (bool * buffer * Z * CalibrationLib) :=
  match _encryptionEnabled s, data, encrypted with
  | true, Some src, Some dst =>
      let paddingSize := 16 - size mod 16 in
      let totalSize := wrap_size_t (size + paddingSize) in
      if (totalSize <? size) || (Z.of_nat (List.length src) <? size)
      then OutOfBounds
      else
        let paddedData :=
          firstn (Z.to_nat size) src
          ++ repeat (byte_of_Z paddingSize) (Z.to_nat paddingSize) in
        match block_loop (mbedtls_aes_encrypt (_encryptionKey s))
                (Z.to_nat (totalSize / 16)) 0 paddedData dst with
        | None => OutOfBounds
        | Some dst' => Returns (true, Some dst', totalSize, s)
        end
  | _, _, _ =>
      Returns (false, encrypted, encSize, setError s CAL_ENCRYPTION_ERROR)
  end.

(** The first test of [decryptData]. *)
Definition decrypt_rejects (s : CalibrationLib) (encrypted : buffer)
  (encSize : Z) (data : buffer) : bool :=
  negb (_encryptionEnabled s)
  || match encrypted with None => true | Some _ => false end
  || match data with None => true | Some _ => false end
  || negb (encSize mod 16 =? 0).

Definition decryptData (s : CalibrationLib) (encrypted : buffer)
  (encSize : Z) (data : buffer) (size : Z)
  : outcome (bool * buffer * Z * CalibrationLib) :=
  if decrypt_rejects s encrypted encSize data
  then Returns (false, data, size, setError s CAL_ENCRYPTION_ERROR)
  else
    match encrypted, data with
    | Some src, Some out =>
        match block_loop (mbedtls_aes_decrypt (_encryptionKey s))
                (Z.to_nat (encSize / 16)) 0 src
                (repeat x00 (Z.to_nat encSize)) with
        | None => OutOfBounds
        | Some decrypted =>
            match buffer_at decrypted (wrap_size_t (encSize - 1)) with
            | None => OutOfBounds
            | Some last =>
                let paddingSize := Z_of_byte last in
                if 16 <? paddingSize
                then Returns (false, data, size,
                              setError s CAL_ENCRYPTION_ERROR)
                else
                  let size := wrap_size_t (encSize - paddingSize) in
                  if Z.of_nat (List.length out) <? size then OutOfBounds
                  else
                    Returns (true,
                             Some (firstn (Z.to_nat size) decrypted
                                   ++ skipn (Z.to_nat size) out),
                             size, s)
            end
        end
    | _, _ => Returns (false, data, size, setError s CAL_ENCRYPTION_ERROR)
    end.

End CalibrationLibClass.

Arguments CalibrationLib P : clear implicits.

(** ** The rest of the class: validation, version and timestamp *)

(** [isalnum] in the C locale. *)
Definition isalnum (c : ascii) : bool :=
  let n := Z.of_nat (nat_of_ascii c) in
  ((48 <=? n) && (n <=? 57))
  || ((65 <=? n) && (n <=? 90))
  || ((97 <=? n) && (n <=? 122)).

(** The character loop of [validateKey]: [false] at the first character
    that is neither alphanumeric nor an underscore. *)
Fixpoint key_chars_valid (s : string) : bool :=
  match s with
  | EmptyString => true
  | String c r =>
      if negb (isalnum c) && negb (Ascii.eqb c "_"%char) then false
      else key_chars_valid r
  end.

Definition validateKey (key : cstr) : bool :=
  match key with
  | None => false
  | Some k =>
      if (strlen k =? 0) || (15 <? strlen k) then false
      else key_chars_valid k
  end.

(** [value] is a pointer to the value: only whether it is null matters. *)
Definition validateValue (key : cstr) (value : buffer) (size : Z) : bool :=
  match value with
  | None => false
  | Some _ => if (size =? 0) || (4096 <? size) then false else true
  end.

(** [unsigned long] is 32 bits wide on the ESP32. *)
Definition wrap_ulong (z : Z) : Z := z mod 2 ^ 32.

(** [String::equals] against a C string, behind [==] and [!=]: a null
    pointer compares equal to the empty [String] only. *)
Definition String_equals_cstr (s : string) (c : cstr) : bool :=
  match c with
  | None => String.eqb s EmptyString
  | Some t => String.eqb s t
  end.

Section CalibrationLibRest.

Context {P : Type} `{PreferencesAPI P}.

Definition setCalibrationVersion (s : CalibrationLib P) (version : cstr)
  : bool * CalibrationLib P :=
  if negb (_initialized s) then (false, s)
  else
    let '(n, p) := putString (_preferences s) (Some "_version") version in
    (bool_of_size_t n, with_preferences s p).

(** The result is the returned flag, the content of [version] after the
    call, and the state. *)
Definition getCalibrationVersion (s : CalibrationLib P)
  : bool * string * CalibrationLib P :=
  if negb (_initialized s) then (false, EmptyString, s)
  else
    let version :=
      getString (_preferences s) (Some "_version") EmptyString in
    (isKey (_preferences s) (Some "_version"), version, s).

Definition isCalibrationOutdated (s : CalibrationLib P)
  (currentVersion : cstr) : bool * CalibrationLib P :=
  let '(ok, storedVersion, s) := getCalibrationVersion s in
  if negb ok then (true, s)
  else (negb (String_equals_cstr storedVersion currentVersion), s).

(** [millis] is what [millis()] returns when the method calls it. *)
Definition setCalibrationTimestamp (s : CalibrationLib P)
  (timestamp millis : Z) : bool * CalibrationLib P :=
  if negb (_initialized s) then (false, s)
  else
    let timestamp := if timestamp =? 0 then millis else timestamp in
    let '(n, p) := putULong (_preferences s) (Some "_timestamp") timestamp in
    (bool_of_size_t n, with_preferences s p).

Definition getCalibrationTimestamp (s : CalibrationLib P)
  : bool * Z * CalibrationLib P :=
  if negb (_initialized s) then (false, 0, s)
  else
    let timestamp := getULong (_preferences s) (Some "_timestamp") 0 in
    (isKey (_preferences s) (Some "_timestamp"), timestamp, s).

Definition isCalibrationExpired (s : CalibrationLib P)
  (maxAgeMs millis : Z) : bool * CalibrationLib P :=
  let '(ok, timestamp, s) := getCalibrationTimestamp s in
  if negb ok then (true, s)
  else (maxAgeMs <? wrap_ulong (millis - timestamp), s).

(** What the accessor relies on from the store: a typed read after a
    successful typed write of the same key returns the value written and
    the key is present; after a successful [clear] or [remove] the key is
    absent. *)
Record PreferencesLaws : Prop := {
  putInt_getInt :
    forall p k v d,
      fst (putInt p k v) <> 0 ->
      getInt (snd (putInt p k v)) k d = v
      /\ isKey (snd (putInt p k v)) k = true;
  putFloat_getFloat :
    forall p k v d,
      fst (putFloat p k v) <> 0 ->
      getFloat (snd (putFloat p k v)) k d = v
      /\ isKey (snd (putFloat p k v)) k = true;
  putString_getString :
    forall p k text d,
      fst (putString p k (Some text)) <> 0 ->
      getString (snd (putString p k (Some text))) k d = text
      /\ isKey (snd (putString p k (Some text))) k = true;
  putULong_getULong :
    forall p k v d,
      fst (putULong p k v) <> 0 ->
      getULong (snd (putULong p k v)) k d = v
      /\ isKey (snd (putULong p k v)) k = true;
  clear_isKey :
    forall p k,
      fst (pref_clear p) = true -> isKey (snd (pref_clear p)) k = false;
  remove_isKey :
    forall p k,
      fst (pref_remove p k) = true ->
      isKey (snd (pref_remove p k)) k = false
}.

End CalibrationLibRest.

Arguments PreferencesLaws P {_}.

(** ** A reference store *)

(** Modelled from the spec: the persistent key-value store is the
    platform's (the ESP32 [Preferences] class over the NVS flash partition),
    consumed through the interface above and missing from the library's
    sources.  The model follows sections 3 and 6 of the specification:
    namespaced entries [(key, type, value)], a key has one type at a time,
    typed reads fall back on the default, keys are 1 to 15 characters, and
    the store reports how many entry slots are free. *)
Module Nvs.

Inductive value : Type :=
| VInt (z : Z)
| VULong (z : Z)
| VFloat (f : float32)
| VString (s : string).

(** [handle] is the namespace opened by [begin]; [flash] lists
    (namespace, key, value) in enumeration order; [capacity] is the number
    of entry slots of the partition. *)
Record t : Type := {
  handle : option string;
  flash : list (string * string * value);
  capacity : Z
}.

(** Entry slots taken by a value: one, and for a string one more per 32
    bytes of its text and terminator. *)
Definition span (v : value) : Z :=
  match v with
  | VString s => 1 + (strlen s + 1 + 31) / 32
  | _ => 1
  end.

Definition used (fl : list (string * string * value)) : Z :=
  fold_right (fun e acc => span (snd e) + acc) 0 fl.

Definition entries (p : t) : list (string * value) :=
  match handle p with
  | None => []
  | Some ns =>
      List.map (fun e => (snd (fst e), snd e))
        (List.filter (fun e => String.eqb (fst (fst e)) ns) (flash p))
  end.

Fixpoint assoc (k : string) (l : list (string * value)) : option value :=
  match l with
  | [] => None
  | (k', v) :: rest => if String.eqb k' k then Some v else assoc k rest
  end.

Definition find (p : t) (key : cstr) : option value :=
  match key with
  | None => None
  | Some k => assoc k (entries p)
  end.

Definition valid_name (k : string) : bool :=
  (1 <=? strlen k) && (strlen k <=? 15).

Definition without (ns k : string) (fl : list (string * string * value)) :=
  List.filter
    (fun e => negb (String.eqb (fst (fst e)) ns && String.eqb (snd (fst e)) k))
    fl.

Definition with_flash (p : t) (fl : list (string * string * value)) : t :=
  {| handle := handle p; flash := fl; capacity := capacity p |}.

(** A typed write of [v] reporting [n] bytes: any earlier entry of the key
    is replaced, whatever its type; the write fails when the store is not
    open, the key is null or malformed, or no slot is left. *)
Definition put (p : t) (key : cstr) (v : value) (n : Z) : Z * t :=
  match handle p, key with
  | Some ns, Some k =>
      let fl := without ns k (flash p) in
      if valid_name k && (used fl + span v <=? capacity p)
      then (n, with_flash p (fl ++ [(ns, k, v)]))
      else (0, p)
  | _, _ => (0, p)
  end.

Definition begin_ (p : t) (name : cstr) (readOnly : bool) : bool * t :=
  match handle p, name with
  | None, Some ns =>
      if valid_name ns
      then (true, {| handle := Some ns; flash := flash p;
                     capacity := capacity p |})
      else (false, p)
  | _, _ => (false, p)
  end.

Definition end_ (p : t) : t :=
  {| handle := None; flash := flash p; capacity := capacity p |}.

Definition clear (p : t) : bool * t :=
  match handle p with
  | None => (false, p)
  | Some ns =>
      (true,
       with_flash p
         (List.filter (fun e => negb (String.eqb (fst (fst e)) ns)) (flash p)))
  end.

Definition remove (p : t) (key : cstr) : bool * t :=
  match handle p, find p key, key with
  | Some ns, Some _, Some k => (true, with_flash p (without ns k (flash p)))
  | _, _, _ => (false, p)
  end.

Definition type_tag (v : value) : string :=
  match v with
  | VInt _ => "i"
  | VULong _ => "u"
  | VFloat _ => "f"
  | VString _ => "s"
  end.

(** Modelled from the spec: the members of [Preferences] the library
    calls, on the store above.  [key] enumerates the open namespace in
    storage order and [getType] gives the type tag of an entry, the empty
    string for a key that is absent. *)
#[global] Instance preferences_api : PreferencesAPI t := {
  pref_begin := begin_;
  pref_end := end_;
  pref_clear := clear;
  pref_remove := remove;
  putInt p k z := put p k (VInt z) 4;
  putFloat p k f := put p k (VFloat f) 4;
  putString p k v :=
    match v with
    | None => (0, p)
    | Some text => put p k (VString text) (strlen text)
    end;
  putULong p k z := put p k (VULong z) 4;
  getInt p k d := match find p k with Some (VInt z) => z | _ => d end;
  getFloat p k d := match find p k with Some (VFloat f) => f | _ => d end;
  getString p k d := match find p k with Some (VString s) => s | _ => d end;
  getULong p k d := match find p k with Some (VULong z) => z | _ => d end;
  isKey p k := match find p k with Some _ => true | None => false end;
  freeEntries p := Z.max 0 (capacity p - used (flash p));
  key p i :=
    if i <? 0 then EmptyString
    else match nth_error (entries p) (Z.to_nat i) with
         | Some (k, _) => k
         | None => EmptyString
         end;
  getType p k :=
    match find p k with Some v => type_tag v | None => EmptyString end
}.

End Nvs.

(** ** A reference JSON text codec *)

(** Modelled from the spec: the JSON parser/serializer is an external
    library (ArduinoJson), consumed through parse-to-tree and tree-to-string
    operations (section 6) and missing from the library's sources.  This
    codec writes compact JSON text and reads it back; numbers are written
    exactly, a number without fraction and exponent is read as an
    integer.  A document
    occupies 16 bytes of its pool per member or element, plus the copied
    text of keys and strings. *)
Module MiniJson.

Definition dquote : ascii := ascii_of_nat 34.
Definition backslash : ascii := ascii_of_nat 92.

Fixpoint escape (s : string) : string :=
  match s with
  | EmptyString => EmptyString
  | String c r =>
      if Ascii.eqb c dquote || Ascii.eqb c backslash
      then String backslash (String c (escape r))
      else String c (escape r)
  end.

Definition quoted (s : string) : string :=
  String dquote (append (escape s) (String dquote EmptyString)).

Definition print_Z (z : Z) : string := NilZero.string_of_int (Z.to_int z).

Fixpoint strip2 (m : positive) (e : Z) : positive * Z :=
  match m with
  | xO m' => if e <? 0 then strip2 m' (e + 1) else (m, e)
  | _ => (m, e)
  end.

Fixpoint zeros (n : nat) : string :=
  match n with
  | O => EmptyString
  | S n' => String "0" (zeros n')
  end.

(** The exact decimal expansion of a finite binary number. *)
Definition print_double (d : double) : string :=
  match d with
  | S754_zero _ => "0"
  | S754_finite s m e =>
      let '(m, e) := strip2 m e in
      let sign := if s then "-" else EmptyString in
      if 0 <=? e then append sign (print_Z (Zpos m * 2 ^ e))
      else
        let k := Z.to_nat (- e) in
        let ds := print_Z (Zpos m * 5 ^ (- e)) in
        let ds := append (zeros (S k - String.length ds)) ds in
        let n := (String.length ds - k)%nat in
        append sign (append (substring 0 n ds)
                            (String "." (substring n k ds)))
  | _ => "null"
  end.

Fixpoint print_value (v : JsonVariant) : string :=
  match v with
  | JNull => "null"
  | JBool true => "true"
  | JBool false => "false"
  | JInt z => print_Z z
  | JFloat d => print_double d
  | JString s => quoted s
  | JArray elems =>
      append "["
        (append
           ((fix items (l : list JsonVariant) : string :=
               match l with
               | [] => EmptyString
               | [x] => print_value x
               | x :: r => append (print_value x) (String "," (items r))
               end) elems)
           "]")
  | JObject members =>
      append "{"
        (append
           ((fix items (l : list (string * JsonVariant)) : string :=
               match l with
               | [] => EmptyString
               | [(k, x)] => append (quoted k) (String ":" (print_value x))
               | (k, x) :: r =>
                   append (quoted k)
                     (String ":" (append (print_value x)
                                         (String "," (items r))))
               end) members)
           "}")
  end.

Fixpoint pool_usage (v : JsonVariant) : Z :=
  match v with
  | JString s => strlen s + 1
  | JArray elems =>
      (fix sum (l : list JsonVariant) : Z :=
         match l with
         | [] => 0
         | x :: r => 16 + pool_usage x + sum r
         end) elems
  | JObject members =>
      (fix sum (l : list (string * JsonVariant)) : Z :=
         match l with
         | [] => 0
         | (k, x) :: r => 16 + (strlen k + 1) + pool_usage x + sum r
         end) members
  | _ => 0
  end.

Definition is_space (c : ascii) : bool :=
  let n := nat_of_ascii c in
  Nat.eqb n 32 || Nat.eqb n 9 || Nat.eqb n 10 || Nat.eqb n 13.

Fixpoint skip_ws (cs : list ascii) : list ascii :=
  match cs with
  | c :: r => if is_space c then skip_ws r else cs
  | [] => []
  end.

Definition is_digit (c : ascii) : bool :=
  let n := nat_of_ascii c in (48 <=? n)%nat && (n <=? 57)%nat.

Fixpoint take_digits (cs : list ascii) : list ascii * list ascii :=
  match cs with
  | c :: r =>
      if is_digit c
      then let '(ds, rest) := take_digits r in (c :: ds, rest)
      else ([], cs)
  | [] => ([], [])
  end.

Definition Z_of_digits (ds : list ascii) : Z :=
  fold_left (fun acc c => 10 * acc + (Z.of_nat (nat_of_ascii c) - 48)) ds 0.

Fixpoint after (lit : list ascii) (cs : list ascii) : option (list ascii) :=
  match lit, cs with
  | [], _ => Some cs
  | l :: lit', c :: cs' => if Ascii.eqb l c then after lit' cs' else None
  | _ :: _, [] => None
  end.

(** The decimal number [n * 10 ^ e10] as a binary64 number. *)
Definition scaled (n e10 : Z) : double :=
  if 0 <=? e10 then binary_normalize 53 1024 (n * 10 ^ e10) 0 false
  else
    SFdiv 53 1024 (binary_normalize 53 1024 n 0 false)
      (binary_normalize 53 1024 (10 ^ (- e10)) 0 false).

(** The optional exponent part: [e] or [E], an optional sign, digits.
    [Some None] when there is no exponent, [None] when it is malformed. *)
Definition parse_exponent (cs : list ascii)
  : option (option Z * list ascii) :=
  let tail :=
    match after ["e"%char] cs with
    | Some r => Some r
    | None => after ["E"%char] cs
    end in
  match tail with
  | None => Some (None, cs)
  | Some r =>
      let '(neg, r) :=
        match after ["-"%char] r with
        | Some r' => (true, r')
        | None =>
            match after ["+"%char] r with
            | Some r' => (false, r')
            | None => (false, r)
            end
        end in
      let '(ds, rest) := take_digits r in
      match ds with
      | [] => None
      | _ :: _ =>
          Some (Some (if neg then - Z_of_digits ds else Z_of_digits ds), rest)
      end
  end.

(** A number: sign, digits, optional fraction, optional exponent.  It is an
    integer when it has neither fraction nor exponent, a float otherwise. *)
Definition parse_number (cs : list ascii)
  : option (JsonVariant * list ascii) :=
  let '(neg, cs) :=
    match after ["-"%char] cs with
    | Some r => (true, r)
    | None => (false, cs)
    end in
  let '(ip, cs) := take_digits cs in
  match ip with
  | [] => None
  | _ :: _ =>
      let fraction :=
        match after ["."%char] cs with
        | Some r =>
            let '(fp, r') := take_digits r in
            match fp with
            | [] => None
            | _ :: _ => Some (fp, r')
            end
        | None => Some ([], cs)
        end in
      match fraction with
      | None => None
      | Some (fp, cs) =>
          match parse_exponent cs with
          | None => None
          | Some (None, rest) =>
              match fp with
              | [] =>
                  Some (JInt (if neg then - Z_of_digits ip
                              else Z_of_digits ip), rest)
              | _ :: _ =>
                  let q :=
                    scaled (Z_of_digits (ip ++ fp))
                      (- Z.of_nat (List.length fp)) in
                  Some (JFloat (if neg then SFopp q else q), rest)
              end
          | Some (Some e10, rest) =>
              let q :=
                scaled (Z_of_digits (ip ++ fp))
                  (e10 - Z.of_nat (List.length fp)) in
              Some (JFloat (if neg then SFopp q else q), rest)
          end
      end
  end.

(** The text of a string, from just after its opening quote. *)
Fixpoint parse_text (cs : list ascii) : option (string * list ascii) :=
  match cs with
  | [] => None
  | c :: r =>
      if Ascii.eqb c dquote then Some (EmptyString, r)
      else if Ascii.eqb c backslash then
        match r with
        | c' :: r' =>
            match parse_text r' with
            | Some (s, rest) => Some (String c' s, rest)
            | None => None
            end
        | [] => None
        end
      else
        match parse_text r with
        | Some (s, rest) => Some (String c s, rest)
        | None => None
        end
  end.

Fixpoint parse_value (fuel : nat) (cs : list ascii)
  : option (JsonVariant * list ascii) :=
  match fuel with
  | O => None
  | S fuel =>
      let cs := skip_ws cs in
      match after (list_ascii_of_string "null") cs with
      | Some r => Some (JNull, r)
      | None =>
      match after (list_ascii_of_string "true") cs with
      | Some r => Some (JBool true, r)
      | None =>
      match after (list_ascii_of_string "false") cs with
      | Some r => Some (JBool false, r)
      | None =>
      match after [dquote] cs with
      | Some r =>
          match parse_text r with
          | Some (s, rest) => Some (JString s, rest)
          | None => None
          end
      | None =>
      match after ["["%char] cs with
      | Some r =>
          match after ["]"%char] (skip_ws r) with
          | Some rest => Some (JArray [], rest)
          | None =>
              match parse_elems fuel r [] with
              | Some (l, rest) => Some (JArray l, rest)
              | None => None
              end
          end
      | None =>
      match after ["{"%char] cs with
      | Some r =>
          match after ["}"%char] (skip_ws r) with
          | Some rest => Some (JObject [], rest)
          | None =>
              match parse_members fuel r [] with
              | Some (l, rest) => Some (JObject l, rest)
              | None => None
              end
          end
      | None => parse_number cs
      end end end end end end
  end
with parse_elems (fuel : nat) (cs : list ascii) (acc : list JsonVariant)
  : option (list JsonVariant * list ascii) :=
  match fuel with
  | O => None
  | S fuel =>
      match parse_value fuel cs with
      | None => None
      | Some (v, r) =>
          let r := skip_ws r in
          match after [","%char] r with
          | Some rest => parse_elems fuel rest (v :: acc)
          | None =>
              match after ["]"%char] r with
              | Some rest => Some (rev (v :: acc), rest)
              | None => None
              end
          end
      end
  end
with parse_members (fuel : nat) (cs : list ascii)
  (acc : list (string * JsonVariant))
  : option (list (string * JsonVariant) * list ascii) :=
  match fuel with
  | O => None
  | S fuel =>
      match after [dquote] (skip_ws cs) with
      | None => None
      | Some r =>
          match parse_text r with
          | None => None
          | Some (k, r) =>
              match after [":"%char] (skip_ws r) with
              | None => None
              | Some r =>
                  match parse_value fuel r with
                  | None => None
                  | Some (v, r) =>
                      let r := skip_ws r in
                      match after [","%char] r with
                      | Some rest => parse_members fuel rest ((k, v) :: acc)
                      | None =>
                          match after ["}"%char] r with
                          | Some rest => Some (rev ((k, v) :: acc), rest)
                          | None => None
                          end
                      end
                  end
              end
          end
      end
  end.

Definition parse (cap : Z) (text : string) : option JsonVariant :=
  match parse_value (S (String.length text)) (list_ascii_of_string text) with
  | Some (v, _) => if pool_usage v <=? cap then Some v else None
  | None => None
  end.

(** Modelled from the spec: serialization appends the text of the document
    to the output string; parsing fails on malformed text and on a document
    larger than the pool. *)
#[global] Instance json_api : ArduinoJsonAPI := {
  memoryPool_fits cap root := pool_usage (JObject root) <=? cap;
  serializeJson doc out := append out (print_value doc);
  deserializeJson := parse
}.

End MiniJson.

(** ** Reference primitives *)

(** Modelled from the spec: the one-way hash and the block cipher are
    external library calls (mbedtls, section 6), missing from the library's
    sources.  The hash is SHA-256 as FIPS 180-4 defines it.  The block
    cipher is a stand-in with the single property the wrapper relies on
    (decryption under a key inverts encryption under it): each byte of a
    block is combined with the key byte at the same position by exclusive
    or. *)
Module SoftCrypto.

Definition w32 (z : Z) : Z := z mod 2 ^ 32.

Definition rotr (x n : Z) : Z :=
  w32 (Z.lor (Z.shiftr x n) (Z.shiftl x (32 - n))).

Definition xor3 (x y z : Z) : Z := Z.lxor (Z.lxor x y) z.

Definition Ch (x y z : Z) : Z :=
  Z.lxor (Z.land x y) (Z.land (w32 (Z.lnot x)) z).

Definition Maj (x y z : Z) : Z :=
  xor3 (Z.land x y) (Z.land x z) (Z.land y z).

Definition Sigma0 (x : Z) : Z := xor3 (rotr x 2) (rotr x 13) (rotr x 22).
Definition Sigma1 (x : Z) : Z := xor3 (rotr x 6) (rotr x 11) (rotr x 25).
Definition sigma0 (x : Z) : Z := xor3 (rotr x 7) (rotr x 18) (Z.shiftr x 3).
Definition sigma1 (x : Z) : Z :=
  xor3 (rotr x 17) (rotr x 19) (Z.shiftr x 10).

(** The round constants are the first 32 bits of the fractional parts of
    the cube roots of the first 64 primes, the initial hash value those of
    the square roots of the first 8. *)
Definition primes : list Z :=
  [2; 3; 5; 7; 11; 13; 17; 19; 23; 29; 31; 37; 41; 43; 47; 53; 59; 61; 67;
   71; 73; 79; 83; 89; 97; 101; 103; 107; 109; 113; 127; 131; 137; 139;
   149; 151; 157; 163; 167; 173; 179; 181; 191; 193; 197; 199; 211; 223;
   227; 229; 233; 239; 241; 251; 257; 263; 269; 271; 277; 281; 283; 293;
   307; 311].

(** The largest [r + d] with [d < 2 ^ bits] and [(r + d) ^ 3 <= n]. *)
Fixpoint cube_root (bits : nat) (n r : Z) : Z :=
  match bits with
  | O => r
  | S b =>
      let c := r + 2 ^ Z.of_nat b in
      if c ^ 3 <=? n then cube_root b n c else cube_root b n r
  end.

Definition K256 : list Z :=
  Eval vm_compute in
    List.map (fun p => w32 (cube_root 36 (p * 2 ^ 96) 0)) primes.

Definition state := (Z * Z * Z * Z * Z * Z * Z * Z)%type.

Definition H0 : state :=
  Eval vm_compute in
    match List.map (fun p => w32 (Z.sqrt (p * 2 ^ 64))) (firstn 8 primes) with
    | [a; b; c; d; e; f; g; h] => (a, b, c, d, e, f, g, h)
    | _ => (0, 0, 0, 0, 0, 0, 0, 0)
    end.

(** Big-endian bytes of the low [8 * n] bits of [z]. *)
Definition be_bytes (n : nat) (z : Z) : list byte :=
  List.map (fun i => byte_of_Z (Z.shiftr z (8 * Z.of_nat (n - 1 - i))))
    (seq 0 n).

(** The message, a one bit, zero bits up to 56 modulo 64 bytes, and the
    length of the message in bits on 8 bytes. *)
Definition pad (m : list byte) : list byte :=
  let len := Z.of_nat (List.length m) in
  m ++ [byte_of_Z 128]
    ++ repeat x00 (Z.to_nat ((55 - len) mod 64))
    ++ be_bytes 8 (8 * len).

Fixpoint words (bs : list byte) : list Z :=
  match bs with
  | a :: b :: c :: d :: r =>
      Z.lor (Z.shiftl (Z_of_byte a) 24)
        (Z.lor (Z.shiftl (Z_of_byte b) 16)
           (Z.lor (Z.shiftl (Z_of_byte c) 8) (Z_of_byte d)))
      :: words r
  | _ => []
  end.

(** The message schedule beyond its first 16 words; [win] holds the last
    16 words. *)
Fixpoint schedule (n : nat) (win : list Z) : list Z :=
  match n with
  | O => []
  | S n' =>
      let w :=
        w32 (sigma1 (nth 14 win 0) + nth 9 win 0
             + sigma0 (nth 1 win 0) + nth 0 win 0) in
      w :: schedule n' (tl win ++ [w])
  end.

Definition round (st : state) (kw : Z * Z) : state :=
  let '(a, b, c, d, e, f, g, h) := st in
  let t1 := w32 (h + Sigma1 e + Ch e f g + fst kw + snd kw) in
  let t2 := w32 (Sigma0 a + Maj a b c) in
  (w32 (t1 + t2), a, b, c, w32 (d + t1), e, f, g).

Definition compress (st : state) (chunk : list byte) : state :=
  let w16 := words chunk in
  let '(a, b, c, d, e, f, g, h) :=
    fold_left round (combine K256 (w16 ++ schedule 48 w16)) st in
  let '(a0, b0, c0, d0, e0, f0, g0, h0) := st in
  (w32 (a0 + a), w32 (b0 + b), w32 (c0 + c), w32 (d0 + d),
   w32 (e0 + e), w32 (f0 + f), w32 (g0 + g), w32 (h0 + h)).

Fixpoint chunks (n : nat) (bs : list byte) : list (list byte) :=
  match n with
  | O => []
  | S n' => firstn 64 bs :: chunks n' (skipn 64 bs)
  end.

Definition sha256 (m : list byte) : list byte :=
  let p := pad m in
  let '(a, b, c, d, e, f, g, h) :=
    fold_left compress (chunks (List.length p / 64) p) H0 in
  be_bytes 4 a ++ be_bytes 4 b ++ be_bytes 4 c ++ be_bytes 4 d
  ++ be_bytes 4 e ++ be_bytes 4 f ++ be_bytes 4 g ++ be_bytes 4 h.

Definition byte_xor (a b : byte) : byte :=
  let '(a0, (a1, (a2, (a3, (a4, (a5, (a6, a7))))))) := Byte.to_bits a in
  let '(b0, (b1, (b2, (b3, (b4, (b5, (b6, b7))))))) := Byte.to_bits b in
  Byte.of_bits
    (xorb a0 b0, (xorb a1 b1, (xorb a2 b2, (xorb a3 b3,
     (xorb a4 b4, (xorb a5 b5, (xorb a6 b6, xorb a7 b7))))))).

Fixpoint xor_with (k b : list byte) : list byte :=
  match b with
  | [] => []
  | x :: b' =>
      match k with
      | [] => x :: xor_with [] b'
      | y :: k' => byte_xor x y :: xor_with k' b'
      end
  end.

(** Modelled from the spec: the primitives behind the encryption
    wrapper. *)
#[global] Instance mbedtls_api : MbedtlsAPI := {
  mbedtls_sha256 := sha256;
  mbedtls_aes_encrypt := xor_with;
  mbedtls_aes_decrypt := xor_with
}.

End SoftCrypto.

(** ** Concrete devices and the scenario of the specification *)

(** A device whose partition has [cap] entry slots and holds nothing. *)
Definition blank_device (cap : Z) : Nvs.t :=
  {| Nvs.handle := None; Nvs.flash := []; Nvs.capacity := cap |}.

(** 1.5 as a binary32 number. *)
Definition f_1_5 : float32 := S754_finite false 12582912 (-23).

(** A freshly constructed accessor on a blank device. *)
Definition fresh (cap : Z) : CalibrationLib Nvs.t :=
  CalibrationLib_new (repeat x00 32) (blank_device cap).

(** Section 8 of the specification: open "t1", set offset = 42,
    scale = 1.5 and name = "X". *)
Definition scenario (cap : Z) : CalibrationLib Nvs.t :=
  let s := snd (begin (fresh cap) (Some "t1")) in
  let s := snd (setCalibrationValue_int s (Some "offset") 42) in
  let s := snd (setCalibrationValue_float s (Some "scale") f_1_5) in
  snd (setCalibrationValue_cstr s (Some "name") (Some "X")).

(** The passphrase of the library's own encryption test. *)
Definition test_passphrase : string := "MySecretKey12345".

(** ** Vocabulary of the encryption properties *)

(** The first [n] 16-byte blocks of [l], each sent through [f]: the bytes
    left by a run of the block loop. *)
Fixpoint ecb (f : list byte -> list byte) (n : nat) (l : list byte)
  : list byte :=
  match n with
  | O => []
  | S n' => f (firstn 16 l) ++ ecb f n' (skipn 16 l)
  end.

(** Length of the padding put after [size] bytes, and the padded text. *)
Definition pad_length (size : Z) : Z := 16 - size mod 16.

Definition padded (x : list byte) : list byte :=
  let p := pad_length (Z.of_nat (List.length x)) in
  x ++ repeat (byte_of_Z p) (Z.to_nat p).

Definition cipher_size (size : Z) : Z := size + pad_length size.

(** What [encryptData] leaves at the front of the output buffer. *)
Definition ciphertext `{MbedtlsAPI} (k x : list byte) : list byte :=
  ecb (mbedtls_aes_encrypt k)
    (Z.to_nat (cipher_size (Z.of_nat (List.length x)) / 16)) (padded x).

(** An accessor with encryption enabled, a second one that shares nothing
    with it but the passphrase, and a plaintext of one block. *)
Definition keyed : CalibrationLib Nvs.t :=
  snd (enableEncryption (fresh 4) (Some test_passphrase)).

Definition keyed_elsewhere : CalibrationLib Nvs.t :=
  snd (enableEncryption (snd (batchCommit (snd (begin (fresh 8) (Some "t1")))))
         (Some test_passphrase)).

Definition one_block : list byte := bytes_of_string "0123456789abcdef".

(** ** Vocabulary of the batch properties *)

(** What a batch operation may touch: the batch flag, the last error and
    the debug sink.  Everything else, the store first of all, is the
    same in [s] and [s']. *)
Definition batch_frame {P : Type} (s s' : CalibrationLib P) : Prop :=
  _preferences s' = _preferences s
  /\ _initialized s' = _initialized s
  /\ _encryptionKey s' = _encryptionKey s
  /\ _encryptionEnabled s' = _encryptionEnabled s
  /\ _debugLevel s' = _debugLevel s.

(** The debug sink has received the lines it had, then zero or more. *)
Definition sink_extended {P : Type} (s s' : CalibrationLib P) : Prop :=
  exists lines, _debugOutput s' = _debugOutput s ++ lines.

(** A state the interface reaches with an error on record: open "t1",
    store name = "X", then commit a batch that was never begun. *)
Definition after_failed_commit : CalibrationLib Nvs.t :=
  let s := snd (begin (fresh 8) (Some "t1")) in
  let s := snd (setCalibrationValue_cstr s (Some "name") (Some "X")) in
  snd (batchCommit s).

(** ** Vocabulary of the further properties *)

(** What a call may print: lines of at most 255 characters, appended to
    the debug sink, and none when the debug level is [DEBUG_NONE]. *)
Definition prints {P : Type} (s s' : CalibrationLib P) : Prop :=
  exists lines,
    _debugOutput s' = _debugOutput s ++ lines
    /\ Forall (fun l => (String.length l <= 255)%nat) lines
    /\ (_debugLevel s = DEBUG_NONE -> lines = []).

(** Everything but the store is the same in [s] and [s']. *)
Definition same_but_store {P : Type} (s s' : CalibrationLib P) : Prop :=
  _initialized s' = _initialized s
  /\ _lastError s' = _lastError s
  /\ _batchMode s' = _batchMode s
  /\ _encryptionKey s' = _encryptionKey s
  /\ _encryptionEnabled s' = _encryptionEnabled s
  /\ _debugLevel s' = _debugLevel s
  /\ _debugOutput s' = _debugOutput s.



(** An accessor opened on the namespace "t1" of a blank device. *)
Definition opened : CalibrationLib Nvs.t :=
  snd (begin (fresh 8) (Some "t1")).

(** * Properties *)

(** ** Memory management and batch operations, over any store *)

Section AnyStore.

Context {P : Type} `{PreferencesAPI P} `{ArduinoJsonAPI} `{MbedtlsAPI}.

Lemma wrap_size_t_diag (z : Z) : wrap_size_t (z - z) = 0.
Proof. now rewrite Z.sub_diag. Qed.

(** C6: whatever the accessor state and the state of the store,
    [getUsedSpace] returns 0: when initialized it is the store's free-entry
    count minus that same count, and 0 otherwise. *)
Theorem getUsedSpace_always_zero (s : CalibrationLib P) :
  getUsedSpace s
  = (if _initialized s
     then wrap_size_t (freeEntries (_preferences s)
                       - freeEntries (_preferences s))
     else 0)
  /\ getUsedSpace s = 0.
Proof.
  unfold getUsedSpace, getFreeSpace.
  destruct (_initialized s); split; try reflexivity.
  apply wrap_size_t_diag.
Qed.

Lemma log_frame (s : CalibrationLib P) level line :
  batch_frame s (log s level line)
  /\ _lastError (log s level line) = _lastError s
  /\ _batchMode (log s level line) = _batchMode s
  /\ sink_extended s (log s level line).
Proof.
  unfold log, batch_frame, sink_extended.
  destruct (_ <=? _); cbn; repeat split.
  - now eexists.
  - exists []. now rewrite app_nil_r.
Qed.

Lemma setError_frame (s : CalibrationLib P) e :
  batch_frame s (setError s e)
  /\ _lastError (setError s e) = e
  /\ _batchMode (setError s e) = _batchMode s
  /\ sink_extended s (setError s e).
Proof.
  unfold setError.
  destruct (negb _).
  - destruct (log_frame (with_lastError s e) DEBUG_ERROR
                (append "Error: " (getErrorString e))) as (F & E & B & S).
    unfold batch_frame, sink_extended in *; cbn in *; intuition congruence.
  - unfold batch_frame, sink_extended; cbn; repeat split.
    exists []. now rewrite app_nil_r.
Qed.

Lemma log_after_batchMode (s : CalibrationLib P) b line :
  batch_frame s (log (with_batchMode s b) DEBUG_INFO line)
  /\ _lastError (log (with_batchMode s b) DEBUG_INFO line) = _lastError s
  /\ _batchMode (log (with_batchMode s b) DEBUG_INFO line) = b
  /\ sink_extended s (log (with_batchMode s b) DEBUG_INFO line).
Proof.
  destruct (log_frame (with_batchMode s b) DEBUG_INFO line)
    as (F & E & B & S).
  unfold batch_frame, sink_extended in *; cbn in *; intuition congruence.
Qed.

(** C9: [batchBegin], [batchCommit] and [batchRollback] change the batch
    flag, and the last error when they fail, and nothing of the store: the
    store after each call is the store before it, so a rollback undoes no
    write.  (Each call may also print a line to the debug sink.) *)
Theorem batch_operations_leave_store (s : CalibrationLib P) :
  let outcome_of (r : bool * CalibrationLib P) (flag : bool) :=
    batch_frame s (snd r)
    /\ sink_extended s (snd r)
    /\ (fst r = true ->
        _batchMode (snd r) = flag /\ _lastError (snd r) = _lastError s)
    /\ (fst r = false ->
        _batchMode (snd r) = _batchMode s
        /\ _lastError (snd r) = CAL_NOT_INITIALIZED) in
  outcome_of (batchBegin s) true
  /\ outcome_of (batchCommit s) false
  /\ outcome_of (batchRollback s) false
  /\ _preferences (snd (batchRollback s)) = _preferences s.
Proof.
  cbv zeta.
  unfold batchBegin, batchCommit, batchRollback.
  destruct (_initialized s) eqn:I, (_batchMode s) eqn:B;
    cbn [negb orb fst snd];
    repeat match goal with
      | |- context [setError s ?e] =>
          destruct (setError_frame s e) as (? & ? & ? & ?);
          generalize dependent (setError s e); intros
      | |- context [log (with_batchMode s ?b) DEBUG_INFO ?l] =>
          destruct (log_after_batchMode s b l) as (? & ? & ? & ?);
          generalize dependent (log (with_batchMode s b) DEBUG_INFO l);
          intros
      end;
    unfold batch_frame in *; intuition (try congruence; try discriminate).
Qed.

(** Closed, a typed write returns [false] and leaves the accessor as it
    was; open, it is the store's write, and its result the byte count that
    write reports, as a [bool]. *)
Lemma setCalibrationValue_int_cases (s : CalibrationLib P) key value :
  (_initialized s = false -> setCalibrationValue_int s key value = (false, s))
  /\ (_initialized s = true ->
      setCalibrationValue_int s key value
      = (bool_of_size_t (fst (putInt (_preferences s) key value)),
         with_preferences s (snd (putInt (_preferences s) key value)))).
Proof.
  unfold setCalibrationValue_int.
  split; intros ->; cbn; [reflexivity|].
  now destruct (putInt _ _ _).
Qed.

Lemma setCalibrationValue_float_cases (s : CalibrationLib P) key value :
  (_initialized s = false ->
   setCalibrationValue_float s key value = (false, s))
  /\ (_initialized s = true ->
      setCalibrationValue_float s key value
      = (bool_of_size_t (fst (putFloat (_preferences s) key value)),
         with_preferences s (snd (putFloat (_preferences s) key value)))).
Proof.
  unfold setCalibrationValue_float.
  split; intros ->; cbn; [reflexivity|].
  now destruct (putFloat _ _ _).
Qed.

Lemma setCalibrationValue_cstr_cases (s : CalibrationLib P) key value :
  (_initialized s = false ->
   setCalibrationValue_cstr s key value = (false, s))
  /\ (_initialized s = true ->
      setCalibrationValue_cstr s key value
      = (bool_of_size_t (fst (putString (_preferences s) key value)),
         with_preferences s (snd (putString (_preferences s) key value)))).
Proof.
  unfold setCalibrationValue_cstr.
  split; intros ->; cbn; [reflexivity|].
  now destruct (putString _ _ _).
Qed.

(** C5 (amended): for every key and value of each of the three types, a
    typed write on an accessor with no namespace open returns [false] and
    leaves the accessor as it was, the last error included: no error is
    recorded.  With a namespace open the write is the store's typed write
    of that key and value: the store afterwards is the one that write
    leaves, the result is [true] exactly when that write reports a byte
    count other than 0, and the last error is again left as it was. *)
Theorem setCalibrationValue_closed_or_delegates (s : CalibrationLib P)
  (key : cstr) :
  (_initialized s = false ->
   (forall v, setCalibrationValue_int s key v = (false, s))
   /\ (forall v, setCalibrationValue_float s key v = (false, s))
   /\ (forall v, setCalibrationValue_cstr s key v = (false, s)))
  /\ (_initialized s = true ->
      (forall v,
          setCalibrationValue_int s key v
          = (negb (fst (putInt (_preferences s) key v) =? 0),
             with_preferences s (snd (putInt (_preferences s) key v))))
      /\ (forall v,
          setCalibrationValue_float s key v
          = (negb (fst (putFloat (_preferences s) key v) =? 0),
             with_preferences s (snd (putFloat (_preferences s) key v))))
      /\ (forall v,
          setCalibrationValue_cstr s key v
          = (negb (fst (putString (_preferences s) key v) =? 0),
             with_preferences s (snd (putString (_preferences s) key v)))))
  /\ (forall v,
        _lastError (snd (setCalibrationValue_int s key v)) = _lastError s)
  /\ (forall v,
        _lastError (snd (setCalibrationValue_float s key v)) = _lastError s)
  /\ (forall v,
        _lastError (snd (setCalibrationValue_cstr s key v)) = _lastError s).
Proof.
  repeat apply conj.
  - intros I. repeat apply conj; intros v.
    + exact (proj1 (setCalibrationValue_int_cases s key v) I).
    + exact (proj1 (setCalibrationValue_float_cases s key v) I).
    + exact (proj1 (setCalibrationValue_cstr_cases s key v) I).
  - intros I. repeat apply conj; intros v.
    + exact (proj2 (setCalibrationValue_int_cases s key v) I).
    + exact (proj2 (setCalibrationValue_float_cases s key v) I).
    + exact (proj2 (setCalibrationValue_cstr_cases s key v) I).
  - intros v. unfold setCalibrationValue_int.
    destruct (negb _); [|destruct (putInt _ _ _)]; reflexivity.
  - intros v. unfold setCalibrationValue_float.
    destruct (negb _); [|destruct (putFloat _ _ _)]; reflexivity.
  - intros v. unfold setCalibrationValue_cstr.
    destruct (negb _); [|destruct (putString _ _ _)]; reflexivity.
Qed.

End AnyStore.

(** ** Typed writes on a closed accessor *)

(** C5, as stated, fails: on a freshly constructed accessor, with no
    namespace open, each of the three typed writes returns [false] and the
    last error is not [CAL_NOT_INITIALIZED] afterwards: it is still
    [CAL_OK]. *)
Lemma setCalibrationValue_closed_keeps_CAL_OK :
  let s := fresh 4 in
  _initialized s = false
  /\ setCalibrationValue_int s (Some "offset") 42 = (false, s)
  /\ setCalibrationValue_float s (Some "scale") f_1_5 = (false, s)
  /\ setCalibrationValue_cstr s (Some "name") (Some "X") = (false, s)
  /\ getLastError (snd (setCalibrationValue_int s (Some "offset") 42))
     = CAL_OK
  /\ getLastError (snd (setCalibrationValue_int s (Some "offset") 42))
     <> CAL_NOT_INITIALIZED
  /\ getLastError (snd (setCalibrationValue_float s (Some "scale") f_1_5))
     <> CAL_NOT_INITIALIZED
  /\ getLastError
       (snd (setCalibrationValue_cstr s (Some "name") (Some "X")))
     <> CAL_NOT_INITIALIZED.
Proof. cbv zeta. repeat split; discriminate. Qed.

(** ** Typed reads on the reference store *)

(** C4, as stated, fails twice.  Reading the absent key "gain" leaves the
    last error at [CAL_NOT_INITIALIZED], which an earlier call recorded; and
    reading the present key "name", which holds a string, as an [int]
    returns [true] with the default in the output. *)
Lemma getCalibrationValue_not_as_claimed :
  let s := after_failed_commit in
  _initialized s = true
  /\ hasCalibrationValue s (Some "gain") = false
  /\ getCalibrationValue_int s (Some "gain") 7 = (false, 7, s)
  /\ getLastError (snd (getCalibrationValue_int s (Some "gain") 7)) <> CAL_OK
  /\ Nvs.find (_preferences s) (Some "name") = Some (Nvs.VString "X")
  /\ getCalibrationValue_int s (Some "name") 7 = (true, 7, s).
Proof.
  cbv zeta. repeat apply conj; try (vm_compute; reflexivity).
  vm_compute. discriminate.
Qed.

(** C4 (amended): closed, a typed read puts the default in the output and
    returns [false]; open, the output is the stored value when the key
    holds a value of the type read and the default otherwise, the result is
    [true] exactly when the key is present, whatever its type; in every case
    the accessor, its last error included, is left as it was. *)
Theorem getCalibrationValue_typed_read (s : CalibrationLib Nvs.t)
  (key : cstr) :
  let found := Nvs.find (_preferences s) key in
  let present := match found with Some _ => true | None => false end in
  (forall d,
      getCalibrationValue_int s key d
      = if _initialized s
        then (present, match found with Some (Nvs.VInt z) => z | _ => d end, s)
        else (false, d, s))
  /\ (forall d,
      getCalibrationValue_float s key d
      = if _initialized s
        then (present,
              match found with Some (Nvs.VFloat f) => f | _ => d end, s)
        else (false, d, s))
  /\ (forall d,
      getCalibrationValue_String s key d
      = if _initialized s
        then (present,
              match found with
              | Some (Nvs.VString text) => text
              | _ => String_of_cstr d
              end, s)
        else (false, String_of_cstr d, s)).
Proof.
  cbv zeta.
  unfold getCalibrationValue_int, getCalibrationValue_float,
    getCalibrationValue_String.
  destruct (_initialized s); cbn; repeat split.
Qed.

(** ** Bytes and blocks *)

Lemma Z_of_byte_of_Z (z : Z) : 0 <= z < 256 -> Z_of_byte (byte_of_Z z) = z.
Proof.
  intros Hz. unfold Z_of_byte, byte_of_Z.
  rewrite Z.mod_small by lia.
  destruct (Byte.of_N (Z.to_N z)) as [b|] eqn:E.
  - apply Byte.to_of_N in E. rewrite E. lia.
  - apply Byte.of_N_None_iff in E. lia.
Qed.

Lemma firstn_app_exact {A} (l r : list A) n :
  List.length l = n -> firstn n (l ++ r) = l.
Proof.
  intros <-. rewrite firstn_app, Nat.sub_diag, firstn_O, app_nil_r.
  apply firstn_all.
Qed.

Lemma skipn_app_exact {A} (l r : list A) n k :
  List.length l = n -> skipn (n + k) (l ++ r) = skipn k r.
Proof.
  intros <-. rewrite skipn_app.
  rewrite skipn_all2 by lia.
  cbn [app]. f_equal. lia.
Qed.

Section BlockLoop.

Variable f : list byte -> list byte.
Hypothesis f_length :
  forall b, List.length b = 16%nat -> List.length (f b) = 16%nat.

Lemma write_block_length dst i blk :
  List.length blk = 16%nat -> (i + 16 <= List.length dst)%nat ->
  List.length (write_block dst i blk) = List.length dst.
Proof.
  intros Hb Hi. unfold write_block.
  rewrite !length_app, length_firstn, length_skipn. lia.
Qed.

Lemma block_loop_ecb n : forall i src dst,
  (i + 16 * n <= List.length src)%nat ->
  (i + 16 * n <= List.length dst)%nat ->
  block_loop f n i src dst
  = Some (firstn i dst ++ ecb f n (skipn i src) ++ skipn (i + 16 * n) dst).
Proof.
  induction n as [|n IH]; intros i src dst Hs Hd.
  - cbn. rewrite Nat.add_0_r. now rewrite firstn_skipn.
  - cbn [block_loop ecb].
    assert (Hblk : List.length (f (firstn 16 (skipn i src))) = 16%nat).
    { apply f_length. rewrite length_firstn, length_skipn. lia. }
    replace ((i + 16 <=? List.length src)%nat) with true
      by (symmetry; apply Nat.leb_le; lia).
    replace ((i + 16 <=? List.length dst)%nat) with true
      by (symmetry; apply Nat.leb_le; lia).
    cbn [andb].
    rewrite IH; [|lia|rewrite write_block_length; lia].
    f_equal. unfold write_block.
    set (blk := f (firstn 16 (skipn i src))) in *.
    assert (Hfi : List.length (firstn i dst ++ blk) = (i + 16)%nat)
      by (rewrite length_app, length_firstn; lia).
    rewrite skipn_skipn.
    replace (16 + i)%nat with (i + 16)%nat by lia.
    rewrite (app_assoc (firstn i dst)).
    rewrite (firstn_app_exact _ _ (i + 16)) by exact Hfi.
    rewrite (skipn_app_exact _ _ (i + 16) (16 * n)) by exact Hfi.
    rewrite skipn_skipn.
    replace (16 * n + (i + 16))%nat with (i + 16 * S n)%nat by lia.
    now rewrite <- !app_assoc.
Qed.

Lemma ecb_length n : forall l,
  (16 * n <= List.length l)%nat -> List.length (ecb f n l) = (16 * n)%nat.
Proof.
  induction n as [|n IH]; intros l Hl; [reflexivity|].
  cbn [ecb]. rewrite length_app, IH by (rewrite length_skipn; lia).
  rewrite f_length by (rewrite length_firstn; lia). lia.
Qed.

Variable g : list byte -> list byte.
Hypothesis g_f : forall b, List.length b = 16%nat -> g (f b) = b.

Lemma ecb_inverse n : forall l rest,
  (16 * n <= List.length l)%nat ->
  ecb g n (ecb f n l ++ rest) = firstn (16 * n) l.
Proof.
  induction n as [|n IH]; intros l rest Hl; [reflexivity|].
  cbn [ecb].
  assert (Hb : List.length (firstn 16 l) = 16%nat)
    by (rewrite length_firstn; lia).
  rewrite <- app_assoc.
  rewrite (firstn_app_exact _ _ 16) by (now apply f_length).
  replace (skipn 16 (f (firstn 16 l) ++ ecb f n (skipn 16 l) ++ rest))
    with (ecb f n (skipn 16 l) ++ rest)
    by (symmetry; apply (skipn_app_exact _ _ 16 0); now apply f_length).
  rewrite g_f, IH by (auto; rewrite length_skipn; lia).
  replace (16 * S n)%nat with (16 + 16 * n)%nat by lia.
  rewrite <- (firstn_skipn 16 (firstn (16 + 16 * n) l)).
  rewrite firstn_firstn, firstn_skipn_comm.
  now replace (Nat.min 16 (16 + 16 * n)) with 16%nat by lia.
Qed.

End BlockLoop.

Ltac Zify.zify_post_hook ::= Z.to_euclidean_division_equations.

Lemma padded_length (x : list byte) :
  Z.of_nat (List.length (padded x)) = cipher_size (Z.of_nat (List.length x)).
Proof.
  unfold padded, cipher_size, pad_length.
  rewrite length_app, repeat_length. lia.
Qed.

Lemma cipher_size_blocks (size : Z) :
  0 <= size ->
  Z.of_nat (16 * Z.to_nat (cipher_size size / 16)) = cipher_size size.
Proof. unfold cipher_size, pad_length. lia. Qed.

(** ** The reference primitives meet the laws *)

Lemma byte_xor_involutive (x y : byte) :
  SoftCrypto.byte_xor (SoftCrypto.byte_xor x y) y = x.
Proof.
  unfold SoftCrypto.byte_xor.
  pose proof (Byte.of_bits_to_bits x) as Hx.
  destruct (Byte.to_bits x) as (a0 & a1 & a2 & a3 & a4 & a5 & a6 & a7).
  destruct (Byte.to_bits y) as (b0 & b1 & b2 & b3 & b4 & b5 & b6 & b7).
  rewrite Byte.to_bits_of_bits, <- Hx.
  now rewrite !xorb_assoc, !xorb_nilpotent, !xorb_false_r.
Qed.

Lemma xor_with_length (k b : list byte) :
  List.length (SoftCrypto.xor_with k b) = List.length b.
Proof.
  revert k; induction b as [|x b IH]; intros k; [reflexivity|].
  destruct k; cbn; now rewrite IH.
Qed.

Lemma xor_with_involutive (k b : list byte) :
  SoftCrypto.xor_with k (SoftCrypto.xor_with k b) = b.
Proof.
  revert k; induction b as [|x b IH]; intros k; [reflexivity|].
  destruct k; cbn; rewrite IH; [reflexivity|].
  now rewrite byte_xor_involutive.
Qed.

Lemma sha256_digest_length (m : list byte) :
  List.length (SoftCrypto.sha256 m) = 32%nat.
Proof.
  unfold SoftCrypto.sha256.
  now destruct (fold_left _ _ _) as [[[[[[[a b] c] d] e] f] g] h].
Qed.

Lemma SoftCrypto_laws : MbedtlsLaws SoftCrypto.mbedtls_api.
Proof.
  split.
  - exact sha256_digest_length.
  - intros k b Hb. exact (eq_trans (xor_with_length k b) Hb).
  - intros k b Hb. exact (eq_trans (xor_with_length k b) Hb).
  - intros k b _. exact (xor_with_involutive k b).
Qed.

(** ** Encryption *)

Section Encryption.

Context {P : Type} `{PreferencesAPI P} `{ArduinoJsonAPI} `{M : MbedtlsAPI}.
Hypothesis laws : MbedtlsLaws M.

(** C7: [enableEncryption] returns [false] and records
    [CAL_ENCRYPTION_ERROR] for a null passphrase and for one shorter than
    16 characters, leaving key and flag alone; for a passphrase of 16
    characters or more it stores the 32-byte SHA-256 digest of the
    passphrase as the key, sets the flag and returns [true]. *)
Theorem enableEncryption_spec (s : CalibrationLib P) (key : cstr) :
  ((key = None \/ exists k, key = Some k /\ strlen k < 16) ->
   fst (enableEncryption s key) = false
   /\ getLastError (snd (enableEncryption s key)) = CAL_ENCRYPTION_ERROR
   /\ _encryptionKey (snd (enableEncryption s key)) = _encryptionKey s
   /\ _encryptionEnabled (snd (enableEncryption s key))
      = _encryptionEnabled s)
  /\ (forall k, key = Some k -> 16 <= strlen k ->
      fst (enableEncryption s key) = true
      /\ _encryptionKey (snd (enableEncryption s key))
         = mbedtls_sha256 (bytes_of_string k)
      /\ 8 * Z.of_nat (List.length
                         (_encryptionKey (snd (enableEncryption s key))))
         = 256
      /\ _encryptionEnabled (snd (enableEncryption s key)) = true
      /\ _lastError (snd (enableEncryption s key)) = _lastError s
      /\ _preferences (snd (enableEncryption s key)) = _preferences s).
Proof.
  split.
  - intros Hshort.
    assert (E : enableEncryption s key
                = (false, setError s CAL_ENCRYPTION_ERROR)).
    { unfold enableEncryption.
      destruct Hshort as [-> | (k & -> & Hk)]; [reflexivity|].
      apply Z.ltb_lt in Hk. now rewrite Hk. }
    rewrite E; cbn [fst snd].
    destruct (setError_frame s CAL_ENCRYPTION_ERROR) as (F & L & _ & _).
    unfold batch_frame in F. unfold getLastError. intuition.
  - intros k -> Hk.
    unfold enableEncryption.
    apply Z.ltb_ge in Hk. rewrite Hk.
    assert (D : firstn 32 (mbedtls_sha256 (bytes_of_string k))
                = mbedtls_sha256 (bytes_of_string k)).
    { apply firstn_all2. rewrite (sha256_length laws). lia. }
    rewrite D. cbn [fst snd].
    set (s1 := with_encryptionEnabled _ true).
    destruct (log_frame s1 DEBUG_INFO "Encryption enabled") as (F & L & _ & _).
    unfold batch_frame in F. destruct F as (F1 & F2 & F3 & F4 & F5).
    rewrite F3, F4, L, F1. subst s1; cbn.
    rewrite (sha256_length laws). repeat split.
Qed.

Lemma ciphertext_length k x :
  Z.of_nat (List.length (ciphertext k x))
  = cipher_size (Z.of_nat (List.length x)).
Proof.
  unfold ciphertext.
  rewrite ecb_length.
  - apply cipher_size_blocks. lia.
  - apply (aes_encrypt_length laws).
  - pose proof (padded_length x).
    pose proof (cipher_size_blocks (Z.of_nat (List.length x))). lia.
Qed.

Lemma encryptData_returns (s : CalibrationLib P) (x out : list byte) e0 :
  _encryptionEnabled s = true ->
  cipher_size (Z.of_nat (List.length x)) < size_t_max ->
  cipher_size (Z.of_nat (List.length x)) <= Z.of_nat (List.length out) ->
  encryptData s (Some x) (Z.of_nat (List.length x)) (Some out) e0
  = Returns (true,
             Some (ciphertext (_encryptionKey s) x
                   ++ skipn (List.length (ciphertext (_encryptionKey s) x))
                        out),
             cipher_size (Z.of_nat (List.length x)), s).
Proof.
  intros En Hmax Hout.
  pose proof (padded_length x) as HP.
  pose proof (cipher_size_blocks (Z.of_nat (List.length x))) as HB.
  pose proof (ciphertext_length (_encryptionKey s) x) as HC.
  unfold encryptData. rewrite En.
  fold (pad_length (Z.of_nat (List.length x))).
  fold (cipher_size (Z.of_nat (List.length x))).
  unfold wrap_size_t.
  rewrite Z.mod_small
    by (unfold cipher_size, pad_length, size_t_max in *; lia).
  replace (cipher_size _ <? _) with false
    by (symmetry; apply Z.ltb_ge; unfold cipher_size, pad_length; lia).
  replace (Z.of_nat (List.length x) <? Z.of_nat (List.length x)) with false
    by (symmetry; apply Z.ltb_ge; lia).
  cbn [orb].
  rewrite Nat2Z.id, firstn_all. fold (padded x).
  rewrite (block_loop_ecb _ (aes_encrypt_length laws _)) by lia.
  cbn [firstn skipn app Nat.add]. fold (ciphertext (_encryptionKey s) x).
  repeat f_equal. lia.
Qed.

(** The plaintext blocks [decryptData] recovers before it looks at the
    padding. *)
Lemma decrypt_loop_returns (k src : list byte) (encSize : Z) :
  0 <= encSize -> encSize mod 16 = 0 ->
  encSize <= Z.of_nat (List.length src) ->
  block_loop (mbedtls_aes_decrypt k) (Z.to_nat (encSize / 16)) 0 src
    (repeat x00 (Z.to_nat encSize))
  = Some (ecb (mbedtls_aes_decrypt k) (Z.to_nat (encSize / 16)) src)
  /\ Z.of_nat (List.length
                 (ecb (mbedtls_aes_decrypt k) (Z.to_nat (encSize / 16)) src))
     = encSize.
Proof.
  intros Hpos Hmod Hsrc.
  assert (Hn : Z.of_nat (16 * Z.to_nat (encSize / 16)) = encSize) by lia.
  split.
  - rewrite (block_loop_ecb _ (aes_decrypt_length laws _))
      by (rewrite ?repeat_length; lia).
    cbn [firstn skipn app Nat.add].
    rewrite skipn_all2 by (rewrite repeat_length; lia).
    now rewrite app_nil_r.
  - rewrite (ecb_length _ (aes_decrypt_length laws _)) by lia.
    exact Hn.
Qed.

Lemma buffer_at_last (b : list byte) (n : Z) :
  0 < n -> Z.of_nat (List.length b) = n -> n < size_t_max ->
  exists last, buffer_at b (wrap_size_t (n - 1)) = Some last
               /\ nth_error b (Z.to_nat (n - 1)) = Some last.
Proof.
  intros Hn Hb Hmax.
  unfold wrap_size_t. rewrite Z.mod_small by lia.
  unfold buffer_at.
  replace ((n - 1 <? 0) || (Z.of_nat (List.length b) <=? n - 1)) with false
    by (symmetry; apply orb_false_iff; split;
        [apply Z.ltb_ge | apply Z.leb_gt]; lia).
  destruct (nth_error b (Z.to_nat (n - 1))) as [last|] eqn:E.
  - now exists last.
  - apply nth_error_None in E. lia.
Qed.

Lemma padded_last (x : list byte) :
  nth_error (padded x)
    (Z.to_nat (cipher_size (Z.of_nat (List.length x)) - 1))
  = Some (byte_of_Z (pad_length (Z.of_nat (List.length x)))).
Proof.
  unfold padded, cipher_size.
  set (p := pad_length (Z.of_nat (List.length x))).
  assert (Hp : 1 <= p <= 16) by (unfold p, pad_length; lia).
  rewrite nth_error_app2 by lia.
  rewrite nth_error_repeat; [reflexivity | lia].
Qed.

Lemma decryptData_ciphertext (s : CalibrationLib P) (x rest plain : list byte)
  n0 :
  _encryptionEnabled s = true ->
  Z.of_nat (List.length x) + 16 < size_t_max ->
  Z.of_nat (List.length x) <= Z.of_nat (List.length plain) ->
  decryptData s (Some (ciphertext (_encryptionKey s) x ++ rest))
    (cipher_size (Z.of_nat (List.length x))) (Some plain) n0
  = Returns (true, Some (x ++ skipn (List.length x) plain),
             Z.of_nat (List.length x), s).
Proof.
  intros En Hmax Hplain.
  set (k := _encryptionKey s).
  set (len := Z.of_nat (List.length x)) in *.
  assert (Hp : 1 <= pad_length len <= 16) by (unfold pad_length; lia).
  assert (Hcs : cipher_size len = len + pad_length len) by reflexivity.
  assert (Hmod : cipher_size len mod 16 = 0)
    by (unfold cipher_size, pad_length; lia).
  pose proof (ciphertext_length k x) as HC. fold len in HC.
  pose proof (padded_length x) as HP. fold len in HP.
  pose proof (cipher_size_blocks len ltac:(lia)) as HB.
  unfold decryptData, decrypt_rejects.
  rewrite En, Hmod. cbn [negb orb Z.eqb].
  destruct (decrypt_loop_returns k (ciphertext k x ++ rest) (cipher_size len))
    as (Hloop & _); [lia | exact Hmod | rewrite length_app; lia |].
  assert (Hdec : ecb (mbedtls_aes_decrypt k)
                   (Z.to_nat (cipher_size len / 16)) (ciphertext k x ++ rest)
                 = padded x).
  { unfold ciphertext. fold len.
    rewrite (ecb_inverse _ (aes_encrypt_length laws k) _
               (aes_decrypt_encrypt laws k)) by lia.
    apply firstn_all2. lia. }
  fold k. rewrite Hloop, Hdec.
  destruct (buffer_at_last (padded x) (cipher_size len))
    as (last & Hat & Hnth); [lia | lia | unfold size_t_max in *; lia |].
  rewrite Hat.
  unfold len in Hnth. rewrite padded_last in Hnth. fold len in Hnth.
  injection Hnth as <-.
  rewrite Z_of_byte_of_Z by lia.
  replace (16 <? pad_length len) with false
    by (symmetry; apply Z.ltb_ge; lia).
  unfold wrap_size_t.
  replace (cipher_size len - pad_length len) with len by lia.
  rewrite Z.mod_small by (unfold size_t_max in *; lia).
  replace (Z.of_nat (List.length plain) <? len) with false
    by (symmetry; apply Z.ltb_ge; lia).
  unfold len. rewrite Nat2Z.id.
  unfold padded. now rewrite (firstn_app_exact _ _ (List.length x)).
Qed.

(** C3: with encryption enabled, [decryptData] applied to what
    [encryptData] produced from [x] returns the bytes and the length of
    [x], for every [x] of at most [2 ^ 32 - 17] bytes, multiples of 16
    included. *)
Theorem decryptData_encryptData (s : CalibrationLib P)
  (x out plain : list byte) (e0 n0 : Z) :
  _encryptionEnabled s = true ->
  Z.of_nat (List.length x) + 16 < size_t_max ->
  Z.of_nat (List.length x) + 16 <= Z.of_nat (List.length out) ->
  Z.of_nat (List.length x) <= Z.of_nat (List.length plain) ->
  exists c encSize,
    encryptData s (Some x) (Z.of_nat (List.length x)) (Some out) e0
    = Returns (true, Some c, encSize, s)
    /\ decryptData s (Some c) encSize (Some plain) n0
       = Returns (true, Some (x ++ skipn (List.length x) plain),
                  Z.of_nat (List.length x), s).
Proof.
  intros En Hmax Hout Hplain.
  assert (Hcs : cipher_size (Z.of_nat (List.length x))
                <= Z.of_nat (List.length x) + 16)
    by (unfold cipher_size, pad_length; lia).
  eexists _, _. split.
  - apply encryptData_returns; [exact En | lia | lia].
  - now apply decryptData_ciphertext.
Qed.

(** C8: two calls of [encryptData] on the same plaintext, made in two
    accessor states that agree on the key, write the same ciphertext, byte
    for byte, whatever else the states, the output buffers and the old
    values of [encSize] are; for a plaintext of a multiple of 16 bytes, 16
    bytes more than the plaintext. *)
Theorem encryptData_deterministic (s1 s2 : CalibrationLib P)
  (x out1 out2 : list byte) (e1 e2 : Z) :
  _encryptionEnabled s1 = true ->
  _encryptionEnabled s2 = true ->
  _encryptionKey s1 = _encryptionKey s2 ->
  Z.of_nat (List.length x) mod 16 = 0 ->
  Z.of_nat (List.length x) + 16 < size_t_max ->
  Z.of_nat (List.length x) + 16 <= Z.of_nat (List.length out1) ->
  Z.of_nat (List.length x) + 16 <= Z.of_nat (List.length out2) ->
  exists c1 c2,
    let encSize := Z.of_nat (List.length x) + 16 in
    encryptData s1 (Some x) (Z.of_nat (List.length x)) (Some out1) e1
    = Returns (true, Some c1, encSize, s1)
    /\ encryptData s2 (Some x) (Z.of_nat (List.length x)) (Some out2) e2
       = Returns (true, Some c2, encSize, s2)
    /\ firstn (Z.to_nat encSize) c1 = firstn (Z.to_nat encSize) c2.
Proof.
  intros En1 En2 Hkey Hal Hmax Hout1 Hout2.
  assert (Hcs : cipher_size (Z.of_nat (List.length x))
                = Z.of_nat (List.length x) + 16)
    by (unfold cipher_size, pad_length; rewrite Hal; lia).
  pose proof (ciphertext_length (_encryptionKey s2) x) as HC.
  eexists _, _. cbv zeta. rewrite <- Hcs. split; [|split].
  - apply encryptData_returns; [exact En1 | lia | lia].
  - apply encryptData_returns; [exact En2 | lia | lia].
  - rewrite Hkey.
    rewrite !(firstn_app_exact _ _
                (Z.to_nat (cipher_size (Z.of_nat (List.length x)))))
      by lia.
    reflexivity.
Qed.

(** C10: with encryption enabled and both buffers present, a call of
    [decryptData] with [encSize = 0] passes the entry test and then reads
    the padding byte outside the (empty) block buffer; when [encSize] is
    positive, a multiple of 16 and within the two buffers, the call
    returns. *)
Theorem decryptData_zero_size_out_of_bounds (s : CalibrationLib P)
  (enc out : list byte) (n0 : Z) :
  _encryptionEnabled s = true ->
  decrypt_rejects s (Some enc) 0 (Some out) = false
  /\ decryptData s (Some enc) 0 (Some out) n0 = OutOfBounds
  /\ (forall encSize,
        0 < encSize < size_t_max -> encSize mod 16 = 0 ->
        encSize <= Z.of_nat (List.length enc) ->
        encSize <= Z.of_nat (List.length out) ->
        decryptData s (Some enc) encSize (Some out) n0 <> OutOfBounds).
Proof.
  intros En. repeat apply conj.
  - unfold decrypt_rejects. now rewrite En.
  - unfold decryptData, decrypt_rejects. rewrite En. reflexivity.
  - intros encSize Hrange Hmod Henc Hout.
    unfold decryptData, decrypt_rejects. rewrite En, Hmod.
    cbn [negb orb Z.eqb].
    destruct (decrypt_loop_returns (_encryptionKey s) enc encSize)
      as (Hloop & Hlen); [lia | exact Hmod | exact Henc |].
    rewrite Hloop.
    destruct (buffer_at_last _ encSize (proj1 Hrange) Hlen (proj2 Hrange))
      as (last & Hat & _).
    rewrite Hat.
    destruct (16 <? Z_of_byte last) eqn:Hpad; [discriminate|].
    apply Z.ltb_ge in Hpad.
    assert (Hb : 0 <= Z_of_byte last)
      by (unfold Z_of_byte; lia).
    replace (_ <? wrap_size_t (encSize - Z_of_byte last)) with false;
      [discriminate|].
    symmetry; apply Z.ltb_ge.
    unfold wrap_size_t, size_t_max in *. lia.
Qed.

End Encryption.

(** The passphrase of the library's test is long enough. *)
Lemma enableEncryption_spec_witness :
  fst (enableEncryption (fresh 4) (Some test_passphrase)) = true
  /\ _encryptionKey (snd (enableEncryption (fresh 4) (Some test_passphrase)))
     = mbedtls_sha256 (bytes_of_string test_passphrase)
  /\ _encryptionEnabled
       (snd (enableEncryption (fresh 4) (Some test_passphrase))) = true.
Proof.
  destruct (proj2 (enableEncryption_spec SoftCrypto_laws (fresh 4)
                     (Some test_passphrase))
              test_passphrase eq_refl) as (A & B & _ & C & _).
  - vm_compute. discriminate.
  - exact (conj A (conj B C)).
Defined.

(** The round trip on a plaintext of exactly one block. *)
Lemma decryptData_encryptData_witness :
  exists c encSize,
    encryptData keyed (Some one_block) (Z.of_nat (List.length one_block))
      (Some (repeat x00 32)) 0
    = Returns (true, Some c, encSize, keyed)
    /\ decryptData keyed (Some c) encSize (Some (repeat xff 16)) 0
       = Returns (true,
                  Some (one_block
                        ++ skipn (List.length one_block) (repeat xff 16)),
                  Z.of_nat (List.length one_block), keyed).
Proof.
  apply (decryptData_encryptData SoftCrypto_laws keyed one_block
           (repeat x00 32) (repeat xff 16) 0 0).
  - vm_compute. reflexivity.
  - vm_compute. reflexivity.
  - vm_compute. discriminate.
  - vm_compute. discriminate.
Defined.

(** The same block encrypted by two accessors that differ in their store,
    their namespace and their last error. *)
Lemma encryptData_deterministic_witness :
  exists c1 c2,
    let encSize := Z.of_nat (List.length one_block) + 16 in
    encryptData keyed (Some one_block) (Z.of_nat (List.length one_block))
      (Some (repeat x00 32)) 0
    = Returns (true, Some c1, encSize, keyed)
    /\ encryptData keyed_elsewhere (Some one_block)
         (Z.of_nat (List.length one_block)) (Some (repeat xff 40)) 7
       = Returns (true, Some c2, encSize, keyed_elsewhere)
    /\ firstn (Z.to_nat encSize) c1 = firstn (Z.to_nat encSize) c2.
Proof.
  apply (encryptData_deterministic SoftCrypto_laws keyed keyed_elsewhere
           one_block (repeat x00 32) (repeat xff 40) 0 7).
  - vm_compute. reflexivity.
  - vm_compute. reflexivity.
  - vm_compute. reflexivity.
  - vm_compute. reflexivity.
  - vm_compute. reflexivity.
  - vm_compute. discriminate.
  - vm_compute. discriminate.
Defined.

(** A zero-size call on empty buffers. *)
Lemma decryptData_zero_size_witness :
  decrypt_rejects keyed (Some []) 0 (Some []) = false
  /\ decryptData keyed (Some []) 0 (Some []) 0 = OutOfBounds.
Proof.
  assert (En : _encryptionEnabled keyed = true) by (vm_compute; reflexivity).
  destruct (decryptData_zero_size_out_of_bounds SoftCrypto_laws keyed [] [] 0
              En) as (A & B & _).
  exact (conj A B).
Defined.

(** ** JSON export and import *)

Section ExportBound.

Context {P : Type} `{PreferencesAPI P} `{ArduinoJsonAPI} `{MbedtlsAPI}.

(** The export loop is bounded by the number of free entry slots: when the
    store reports none, the document stays empty, whatever the store
    holds. *)
Lemma exportToJson_no_free_entry (s : CalibrationLib P)
  (jsonString : string) :
  _initialized s = true ->
  freeEntries (_preferences s) <= 0 ->
  exportToJson s jsonString
  = (true, serializeJson (JObject []) jsonString, s).
Proof.
  intros Hinit Hfree. unfold exportToJson, loop_indices.
  rewrite Hinit. cbn [negb].
  replace (Z.to_nat (freeEntries (_preferences s))) with 0%nat by lia.
  reflexivity.
Qed.

(** Members that are null, Boolean, arrays or objects are passed over by
    the import loop. *)
Lemma import_pair_skips (s : CalibrationLib P) (k : string)
  (v : JsonVariant) :
  is_int v = false -> is_float v = false -> is_cstr v = false ->
  import_pair s (k, v) = s.
Proof.
  intros Hi Hf Hc. unfold import_pair. now rewrite Hi, Hf, Hc.
Qed.

End ExportBound.

(** C2: after the scenario on a device of 4 entry slots, the open namespace
    holds three entries and the store has no free slot; [exportToJson]
    returns [true] and the text of an empty object. *)
Theorem exportToJson_full_store_exports_nothing :
  let s := scenario 4 in
  _initialized s = true
  /\ Nvs.entries (_preferences s)
     = [("offset", Nvs.VInt 42); ("scale", Nvs.VFloat f_1_5);
        ("name", Nvs.VString "X")]
  /\ freeEntries (_preferences s) = 0
  /\ exportToJson s EmptyString = (true, "{}", s).
Proof. cbv zeta. repeat apply conj; vm_compute; reflexivity. Qed.

(** C1: after the scenario on a device of 4 entry slots, [exportToJson],
    [clearAllCalibrationValues] and [importFromJson] of the exported text
    all return [true], and the namespace, which held "offset", "scale" and
    "name", is left empty. *)
Theorem export_clear_import_loses_entries :
  let s := scenario 4 in
  let '(exported, json, s1) := exportToJson s EmptyString in
  let '(cleared, s2) := clearAllCalibrationValues s1 in
  let '(imported, s3) := importFromJson s2 json in
  exported = true /\ cleared = true /\ imported = true
  /\ hasCalibrationValue s (Some "offset") = true
  /\ hasCalibrationValue s (Some "scale") = true
  /\ hasCalibrationValue s (Some "name") = true
  /\ hasCalibrationValue s3 (Some "offset") = false
  /\ Nvs.entries (_preferences s3) = [].
Proof. vm_compute. repeat apply conj; reflexivity. Qed.

(** With room to spare (100 slots) the same three calls restore the three
    entries, and the exported document has one member per entry. *)
Example export_clear_import_with_free_slots :
  let s := scenario 100 in
  let '(exported, json, s1) := exportToJson s EmptyString in
  let '(cleared, s2) := clearAllCalibrationValues s1 in
  let '(imported, s3) := importFromJson s2 json in
  exported = true /\ cleared = true /\ imported = true
  /\ json
     = serializeJson
         (JObject [("offset", JInt 42);
                   ("scale", JFloat (double_of_float f_1_5));
                   ("name", JString "X")]) EmptyString
  /\ Nvs.entries (_preferences s2) = []
  /\ Nvs.entries (_preferences s3) = Nvs.entries (_preferences s).
Proof. vm_compute. repeat apply conj; reflexivity. Qed.

(** Members of unsupported shapes are dropped, and the import still
    returns [true]. *)
Example importFromJson_drops_unsupported :
  let s := snd (begin (fresh 100) (Some "t1")) in
  let json :=
    serializeJson
      (JObject [("a", JNull); ("b", JArray [JInt 1]);
                ("c", JObject [("d", JInt 2)]); ("offset", JInt 42)])
      EmptyString in
  fst (importFromJson s json) = true
  /\ Nvs.entries (_preferences (snd (importFromJson s json)))
     = [("offset", Nvs.VInt 42)].
Proof. vm_compute. split; reflexivity. Qed.

(** A write made after [batchBegin] is still there after
    [batchRollback]. *)
Example batchRollback_keeps_writes :
  let s := snd (batchBegin (snd (begin (fresh 100) (Some "t1")))) in
  let s := snd (setCalibrationValue_int s (Some "offset") 42) in
  fst (batchRollback s) = true
  /\ getCalibrationValue_int (snd (batchRollback s)) (Some "offset") 0
     = (true, 42, snd (batchRollback s)).
Proof. vm_compute. split; reflexivity. Qed.

(** The reference hash on the standard test vector "abc". *)
Example sha256_abc :
  List.map Z_of_byte (SoftCrypto.sha256 (bytes_of_string "abc"))
  = [0xba; 0x78; 0x16; 0xbf; 0x8f; 0x01; 0xcf; 0xea;
     0x41; 0x41; 0x40; 0xde; 0x5d; 0xae; 0x22; 0x23;
     0xb0; 0x03; 0x61; 0xa3; 0x96; 0x17; 0x7a; 0x9c;
     0xb4; 0x10; 0xff; 0x61; 0xf2; 0x00; 0x15; 0xad].
Proof. vm_compute. reflexivity. Qed.

(** * Further properties *)

(** ** The debug sink *)

Lemma substring_0_length (m : nat) : forall s : string,
  (String.length (substring 0 m s) <= m)%nat.
Proof.
  induction m as [|m IH]; intros [|c s]; cbn; try lia.
  specialize (IH s). lia.
Qed.

Section Discipline.

Context {P : Type} `{PreferencesAPI P} `{ArduinoJsonAPI} `{MbedtlsAPI}.

Lemma prints_refl (s : CalibrationLib P) : prints s s.
Proof.
  exists []. rewrite app_nil_r. repeat split. constructor.
Qed.

(** A state that differs from [s] in neither sink nor level prints what
    [s] prints. *)
Lemma prints_from (s s1 s2 : CalibrationLib P) :
  _debugOutput s1 = _debugOutput s -> _debugLevel s1 = _debugLevel s ->
  prints s1 s2 -> prints s s2.
Proof.
  intros Ho Hl (lines & E & F & N). exists lines.
  rewrite <- Ho, <- Hl. auto.
Qed.

Lemma log_prints (s : CalibrationLib P) level line :
  level <> DEBUG_NONE -> prints s (log s level line).
Proof.
  intros Hlevel. unfold log.
  destruct (_ <=? _) eqn:E; [|apply prints_refl].
  exists [substring 0 255 line]. cbn. repeat split.
  - constructor; [apply substring_0_length | constructor].
  - intros Hnone. rewrite Hnone in E.
    destruct level; cbn in E; congruence.
Qed.

Lemma setError_prints (s : CalibrationLib P) e : prints s (setError s e).
Proof.
  unfold setError. destruct (negb _).
  - apply (prints_from s (with_lastError s e)); try reflexivity.
    apply log_prints. discriminate.
  - apply (prints_from s (with_lastError s e)); try reflexivity.
    apply prints_refl.
Qed.

Ltac prints_step :=
  match goal with
  | |- prints ?s (setError ?s1 _) =>
      apply (prints_from s s1); [reflexivity | reflexivity |];
      apply setError_prints
  | |- prints ?s (log ?s1 _ _) =>
      apply (prints_from s s1); [reflexivity | reflexivity |];
      apply log_prints; discriminate
  | |- prints _ _ =>
      exists []; rewrite app_nil_r; cbn; repeat split; constructor
  end.

Lemma begin_prints (s : CalibrationLib P) n : prints s (snd (begin s n)).
Proof.
  unfold begin. destruct n as [name|]; [|cbn; prints_step].
  destruct (_initialized s);
    destruct (pref_begin _ _ _) as [[|] p]; cbn; prints_step.
Qed.

(** X1: whatever the method, what it sends to the debug sink is appended
    to what was there, every new line has at most 255 characters, and at
    level [DEBUG_NONE] nothing is sent at all. *)
Theorem debug_output_discipline (s : CalibrationLib P) :
  (forall e, prints s (setError s e))
  /\ prints s (snd (batchBegin s))
  /\ prints s (snd (batchCommit s))
  /\ prints s (snd (batchRollback s))
  /\ (forall n, prints s (snd (begin s n)))
  /\ prints s (end_ s)
  /\ (forall k, prints s (snd (enableEncryption s k)))
  /\ prints s (snd (disableEncryption s))
  /\ (forall data size enc n r,
        encryptData s data size enc n = Returns r -> prints s (snd r))
  /\ (forall enc n data size r,
        decryptData s enc n data size = Returns r -> prints s (snd r)).
Proof.
  repeat apply conj.
  - apply setError_prints.
  - unfold batchBegin. destruct (negb _); cbn; prints_step.
  - unfold batchCommit. destruct (_ || _); cbn; prints_step.
  - unfold batchRollback. destruct (_ || _); cbn; prints_step.
  - apply begin_prints.
  - unfold end_. destruct (_initialized s); prints_step.
  - intros k. unfold enableEncryption.
    destruct k as [k|]; [destruct (_ <? _)|]; cbn; prints_step.
  - unfold disableEncryption. destruct (negb _); cbn; prints_step.
  - intros data size enc n r. unfold encryptData.
    destruct (_encryptionEnabled s), data, enc;
      try (intros [= <-]; cbn; prints_step).
    destruct (_ || _); [discriminate|].
    destruct (block_loop _ _ _ _ _); [|discriminate].
    intros [= <-]; cbn; prints_step.
  - intros enc n data size r. unfold decryptData.
    destruct (decrypt_rejects _ _ _ _);
      [intros [= <-]; cbn; prints_step|].
    destruct enc, data; try (intros [= <-]; cbn; prints_step).
    destruct (block_loop _ _ _ _ _); [|discriminate].
    destruct (buffer_at _ _); [|discriminate].
    destruct (_ <? _); [intros [= <-]; cbn; prints_step|].
    destruct (_ <? _); [discriminate|].
    intros [= <-]; cbn; prints_step.
Qed.

End Discipline.

(** ** Opening, closing and the batch flag *)

Section Lifecycle.

Context {P : Type} `{PreferencesAPI P} `{ArduinoJsonAPI} `{MbedtlsAPI}.

(** What [begin] leaves alone. *)
Lemma begin_frame (s : CalibrationLib P) n :
  _batchMode (snd (begin s n)) = _batchMode s
  /\ _encryptionKey (snd (begin s n)) = _encryptionKey s
  /\ _encryptionEnabled (snd (begin s n)) = _encryptionEnabled s
  /\ _debugLevel (snd (begin s n)) = _debugLevel s.
Proof.
  unfold begin. destruct n as [name|].
  - destruct (_initialized s);
      destruct (pref_begin _ _ _) as [[|] p]; cbn;
      match goal with
      | |- context [setError ?s1 ?e] =>
          destruct (setError_frame s1 e) as ((_ & _ & K & E & D) & _ & B & _);
          rewrite K, E, D, B; cbn; auto
      | |- context [log ?s1 ?l ?m] =>
          destruct (log_frame s1 l m) as ((_ & _ & K & E & D) & _ & B & _);
          rewrite K, E, D, B; cbn; auto
      end.
  - cbn [fst snd].
    destruct (setError_frame s CAL_INVALID_PARAM)
      as ((_ & _ & K & E & D) & _ & B & _).
    auto.
Qed.

(** X2: [begin] with a null name fails with [CAL_INVALID_PARAM] and leaves
    the store and the open flag as they were.  With a name, the accessor is
    open afterwards exactly when [begin] returns [true]; a failure records
    [CAL_NOT_INITIALIZED] (and leaves a namespace that was open closed), a
    success leaves the last error as it was. *)
Theorem begin_result (s : CalibrationLib P) :
  (fst (begin s None) = false
   /\ _lastError (snd (begin s None)) = CAL_INVALID_PARAM
   /\ _preferences (snd (begin s None)) = _preferences s
   /\ _initialized (snd (begin s None)) = _initialized s)
  /\ (forall name,
        _initialized (snd (begin s (Some name))) = fst (begin s (Some name))
        /\ (fst (begin s (Some name)) = true ->
            _lastError (snd (begin s (Some name))) = _lastError s)
        /\ (fst (begin s (Some name)) = false ->
            _lastError (snd (begin s (Some name))) = CAL_NOT_INITIALIZED)).
Proof.
  split.
  - cbn [begin fst snd].
    destruct (setError_frame s CAL_INVALID_PARAM)
      as ((Pf & I & _) & L & _). auto.
  - intros name. unfold begin.
    destruct (_initialized s);
      destruct (pref_begin _ _ _) as [[|] p]; cbn;
      match goal with
      | |- context [setError ?s1 ?e] =>
          destruct (setError_frame s1 e) as ((_ & I & _) & L & _);
          rewrite I, L; cbn; repeat split; auto; discriminate
      | |- context [log ?s1 ?l ?m] =>
          destruct (log_frame s1 l m) as ((_ & I & _) & L & _);
          rewrite I, L; cbn; repeat split; auto; discriminate
      end.
Qed.

(** X3: after [end] the accessor is closed, and a closed accessor refuses
    every data operation without touching anything: writes, [remove],
    [clear], the JSON methods, version and timestamp writes return [false];
    reads return [false] with the default; the calibration counts as
    outdated and expired; no space is reported. *)
Theorem end_closes_everything (s : CalibrationLib P) :
  let c := end_ s in
  _initialized c = false
  /\ end_ c = c
  /\ (forall k v, setCalibrationValue_int c k v = (false, c))
  /\ (forall k v, setCalibrationValue_float c k v = (false, c))
  /\ (forall k v, setCalibrationValue_cstr c k v = (false, c))
  /\ (forall k d, getCalibrationValue_int c k d = (false, d, c))
  /\ (forall k d, getCalibrationValue_float c k d = (false, d, c))
  /\ (forall k d,
        getCalibrationValue_String c k d = (false, String_of_cstr d, c))
  /\ (forall k, hasCalibrationValue c k = false)
  /\ (forall k, removeCalibrationValue c k = (false, c))
  /\ clearAllCalibrationValues c = (false, c)
  /\ (forall out, exportToJson c out = (false, out, c))
  /\ (forall json, importFromJson c json = (false, c))
  /\ (forall v, setCalibrationVersion c v = (false, c))
  /\ getCalibrationVersion c = (false, EmptyString, c)
  /\ (forall v, isCalibrationOutdated c v = (true, c))
  /\ (forall t now, setCalibrationTimestamp c t now = (false, c))
  /\ getCalibrationTimestamp c = (false, 0, c)
  /\ (forall age now, isCalibrationExpired c age now = (true, c))
  /\ getFreeSpace c = 0.
Proof.
  cbv zeta.
  assert (I : _initialized (end_ s) = false).
  { unfold end_. destruct (_initialized s) eqn:E; [reflexivity | exact E]. }
  split; [exact I|].
  unfold end_ at 1. rewrite I.
  unfold setCalibrationValue_int, setCalibrationValue_float,
    setCalibrationValue_cstr, getCalibrationValue_int,
    getCalibrationValue_float, getCalibrationValue_String,
    hasCalibrationValue, removeCalibrationValue, clearAllCalibrationValues,
    exportToJson, importFromJson, setCalibrationVersion,
    isCalibrationOutdated, getCalibrationVersion, setCalibrationTimestamp,
    isCalibrationExpired, getCalibrationTimestamp, getFreeSpace.
  rewrite I. cbn [negb]. repeat split.
Qed.

(** X4: the flag a typed read returns is the answer of
    [hasCalibrationValue] for the same key, open or closed, for the three
    types; the flag of [getCalibrationVersion] is that of the key
    "_version". *)
Theorem get_flag_is_has (s : CalibrationLib P) (k : cstr) :
  (forall d, fst (fst (getCalibrationValue_int s k d))
             = hasCalibrationValue s k)
  /\ (forall d, fst (fst (getCalibrationValue_float s k d))
                = hasCalibrationValue s k)
  /\ (forall d, fst (fst (getCalibrationValue_String s k d))
                = hasCalibrationValue s k)
  /\ fst (fst (getCalibrationVersion s))
     = hasCalibrationValue s (Some "_version")
  /\ fst (fst (getCalibrationTimestamp s))
     = hasCalibrationValue s (Some "_timestamp").
Proof.
  unfold getCalibrationValue_int, getCalibrationValue_float,
    getCalibrationValue_String, getCalibrationVersion,
    getCalibrationTimestamp, hasCalibrationValue.
  destruct (_initialized s); cbn; repeat split.
Qed.

Lemma end_frame (s : CalibrationLib P) :
  _batchMode (end_ s) = _batchMode s
  /\ _lastError (end_ s) = _lastError s
  /\ _encryptionKey (end_ s) = _encryptionKey s
  /\ _encryptionEnabled (end_ s) = _encryptionEnabled s.
Proof. unfold end_. destruct (_initialized s); cbn; auto. Qed.

Lemma batchBegin_true (s : CalibrationLib P) :
  fst (batchBegin s) = true ->
  _initialized s = true /\ _batchMode (snd (batchBegin s)) = true
  /\ _initialized (snd (batchBegin s)) = true.
Proof.
  unfold batchBegin. destruct (_initialized s) eqn:E; cbn; [|discriminate].
  intros _.
  destruct (log_after_batchMode s true "Batch operation started")
    as ((_ & I & _) & _ & B & _).
  repeat split; congruence.
Qed.

Lemma batchCommit_true_iff (s : CalibrationLib P) :
  fst (batchCommit s) = _initialized s && _batchMode s.
Proof.
  unfold batchCommit. now destruct (_initialized s), (_batchMode s).
Qed.

Lemma batchRollback_true_iff (s : CalibrationLib P) :
  fst (batchRollback s) = _initialized s && _batchMode s.
Proof.
  unfold batchRollback. now destruct (_initialized s), (_batchMode s).
Qed.

Lemma batch_end_flags (s : CalibrationLib P) :
  (fst (batchCommit s) = true ->
   _batchMode (snd (batchCommit s)) = false
   /\ _initialized (snd (batchCommit s)) = true)
  /\ (fst (batchRollback s) = true ->
      _batchMode (snd (batchRollback s)) = false
      /\ _initialized (snd (batchRollback s)) = true).
Proof.
  unfold batchCommit, batchRollback.
  destruct (_initialized s) eqn:I, (_batchMode s); cbn;
    split; try discriminate; intros _;
    match goal with
    | |- context [log (with_batchMode s false) DEBUG_INFO ?m] =>
        destruct (log_after_batchMode s false m) as ((_ & I' & _) & _ & B & _);
        split; congruence
    end.
Qed.

(** X5: batches do not nest and are closed once.  [batchCommit] and
    [batchRollback] succeed exactly on an open accessor in batch mode; after
    either has succeeded, both fail; [batchBegin] on an accessor already in
    batch mode succeeds again, and one [batchCommit] then ends the batch. *)
Theorem batch_closes_once (s : CalibrationLib P) :
  fst (batchCommit s) = _initialized s && _batchMode s
  /\ fst (batchRollback s) = _initialized s && _batchMode s
  /\ (fst (batchCommit s) = true ->
      fst (batchCommit (snd (batchCommit s))) = false
      /\ fst (batchRollback (snd (batchCommit s))) = false)
  /\ (fst (batchRollback s) = true ->
      fst (batchCommit (snd (batchRollback s))) = false
      /\ fst (batchRollback (snd (batchRollback s))) = false)
  /\ (fst (batchBegin s) = true ->
      fst (batchBegin (snd (batchBegin s))) = true
      /\ fst (batchCommit (snd (batchBegin (snd (batchBegin s))))) = true
      /\ fst (batchCommit
                (snd (batchCommit (snd (batchBegin (snd (batchBegin s))))))) 
         = false).
Proof.
  repeat apply conj.
  - apply batchCommit_true_iff.
  - apply batchRollback_true_iff.
  - intros Hc. destruct (proj1 (batch_end_flags s) Hc) as (B & I).
    now rewrite batchCommit_true_iff, batchRollback_true_iff, B, I.
  - intros Hr. destruct (proj2 (batch_end_flags s) Hr) as (B & I).
    now rewrite batchCommit_true_iff, batchRollback_true_iff, B, I.
  - intros Hb. destruct (batchBegin_true s Hb) as (_ & B1 & I1).
    assert (Hb2 : fst (batchBegin (snd (batchBegin s))) = true).
    { unfold batchBegin at 1. now rewrite I1. }
    destruct (batchBegin_true _ Hb2) as (_ & B2 & I2).
    assert (Hc : fst (batchCommit (snd (batchBegin (snd (batchBegin s)))))
                 = true).
    { now rewrite batchCommit_true_iff, B2, I2. }
    destruct (proj1 (batch_end_flags _) Hc) as (B3 & I3).
    repeat split; auto.
    now rewrite batchCommit_true_iff, B3, I3.
Qed.

(** X6: the batch flag outlives the namespace.  [end] and [begin] leave it
    as it is, so a batch begun on one namespace is committed with success
    after the accessor has been closed and opened again, on whatever
    namespace. *)
Theorem batch_flag_survives_reopen (s : CalibrationLib P) (name : cstr) :
  _batchMode (end_ s) = _batchMode s
  /\ _batchMode (snd (begin s name)) = _batchMode s
  /\ (fst (batchBegin s) = true ->
      fst (begin (end_ (snd (batchBegin s))) name) = true ->
      fst (batchCommit (snd (begin (end_ (snd (batchBegin s))) name)))
      = true).
Proof.
  repeat apply conj.
  - apply end_frame.
  - apply begin_frame.
  - intros Hb Hopen.
    destruct (batchBegin_true s Hb) as (_ & B & _).
    rewrite batchCommit_true_iff.
    destruct (begin_frame (end_ (snd (batchBegin s))) name) as (B' & _).
    rewrite B', (proj1 (end_frame _)), B, andb_true_r.
    destruct name as [n|].
    + unfold begin in *.
      destruct (_initialized (end_ (snd (batchBegin s))));
        destruct (pref_begin _ _ _) as [[|] p]; cbn in *;
        try discriminate;
        match goal with
        | |- context [log ?s1 ?l ?m] =>
            destruct (log_frame s1 l m) as ((_ & I & _) & _);
            rewrite I; reflexivity
        end.
    + cbn in Hopen. discriminate.
Qed.

End Lifecycle.

(** ** The reference store meets the laws *)

Lemma Nvs_assoc_without (ns k : string) tail :
  forall fl,
    Nvs.assoc k
      (List.map (fun e : string * string * Nvs.value => (snd (fst e), snd e))
         (List.filter (fun e => String.eqb (fst (fst e)) ns)
            (Nvs.without ns k fl)) ++ tail)
    = Nvs.assoc k tail.
Proof.
  induction fl as [|[[ns' k'] v'] fl IH]; [reflexivity|].
  unfold Nvs.without in *. cbn [List.filter fst snd].
  destruct (String.eqb ns' ns) eqn:En; cbn [andb negb].
  - destruct (String.eqb k' k) eqn:Ek; cbn [negb]; [exact IH|].
    cbn [List.filter fst snd]. rewrite En. cbn [List.map app Nvs.assoc fst snd].
    rewrite Ek. exact IH.
  - cbn [List.filter fst snd]. rewrite En. exact IH.
Qed.

Lemma Nvs_find_after_put (p : Nvs.t) (ns k : string) (v : Nvs.value) :
  Nvs.handle p = Some ns ->
  Nvs.find
    (Nvs.with_flash p (Nvs.without ns k (Nvs.flash p) ++ [(ns, k, v)]))
    (Some k)
  = Some v.
Proof.
  intros Hh. unfold Nvs.find, Nvs.entries, Nvs.with_flash.
  cbn [Nvs.handle Nvs.flash]. rewrite Hh.
  rewrite filter_app, map_app. cbn [List.filter fst snd].
  rewrite String.eqb_refl. cbn [List.map fst snd].
  rewrite Nvs_assoc_without. cbn. now rewrite String.eqb_refl.
Qed.

Lemma Nvs_put_success (p : Nvs.t) (key : cstr) (v : Nvs.value) (n : Z) :
  fst (Nvs.put p key v n) <> 0 ->
  exists ns k,
    Nvs.handle p = Some ns /\ key = Some k
    /\ snd (Nvs.put p key v n)
       = Nvs.with_flash p (Nvs.without ns k (Nvs.flash p) ++ [(ns, k, v)]).
Proof.
  unfold Nvs.put.
  destruct (Nvs.handle p) as [ns|], key as [k|]; cbn; try congruence.
  destruct (_ && _); cbn; try congruence.
  intros _. now exists ns, k.
Qed.

Lemma Nvs_find_after_write (p : Nvs.t) (key : cstr) (v : Nvs.value) (n : Z) :
  fst (Nvs.put p key v n) <> 0 ->
  Nvs.find (snd (Nvs.put p key v n)) key = Some v.
Proof.
  intros Hput.
  destruct (Nvs_put_success p key v n Hput) as (ns & k & Hh & -> & ->).
  now apply Nvs_find_after_put.
Qed.

Lemma Nvs_entries_after_clear (ns : string) :
  forall fl,
    List.filter (fun e : string * string * Nvs.value =>
                   String.eqb (fst (fst e)) ns)
      (List.filter (fun e => negb (String.eqb (fst (fst e)) ns)) fl)
    = [].
Proof.
  induction fl as [|e fl IH]; [reflexivity|].
  cbn [List.filter]. destruct (String.eqb (fst (fst e)) ns) eqn:E; cbn [negb].
  - exact IH.
  - cbn [List.filter]. now rewrite E.
Qed.

Lemma Nvs_laws : PreferencesLaws Nvs.t.
Proof.
  split.
  - intros p k v d Hput. cbn [putInt getInt isKey Nvs.preferences_api] in *.
    now rewrite (Nvs_find_after_write _ _ _ _ Hput).
  - intros p k v d Hput. cbn [putFloat getFloat isKey Nvs.preferences_api] in *.
    now rewrite (Nvs_find_after_write _ _ _ _ Hput).
  - intros p k text d Hput.
    cbn [putString getString isKey Nvs.preferences_api] in *.
    now rewrite (Nvs_find_after_write _ _ _ _ Hput).
  - intros p k v d Hput. cbn [putULong getULong isKey Nvs.preferences_api] in *.
    now rewrite (Nvs_find_after_write _ _ _ _ Hput).
  - intros p k. cbn [pref_clear isKey Nvs.preferences_api].
    unfold Nvs.clear. destruct (Nvs.handle p) as [ns|] eqn:Hh; cbn;
      [intros _ | discriminate].
    unfold Nvs.find, Nvs.entries. cbn. rewrite Hh.
    rewrite Nvs_entries_after_clear. now destruct k.
  - intros p k. cbn [pref_remove isKey Nvs.preferences_api].
    unfold Nvs.remove.
    destruct (Nvs.handle p) as [ns|] eqn:Hh,
             (Nvs.find p k), k as [k|]; cbn; try discriminate.
    intros _. unfold Nvs.find, Nvs.entries. cbn. rewrite Hh.
    pose proof (Nvs_assoc_without ns k [] (Nvs.flash p)) as E.
    rewrite app_nil_r in E. now rewrite E.
Qed.

(** ** Reads after writes, on any store that meets the laws *)

Section WriteThenRead.

Context {P : Type} `{PreferencesAPI P}.
Hypothesis laws : PreferencesLaws P.

Lemma bool_of_size_t_true (n : Z) : bool_of_size_t n = true -> n <> 0.
Proof.
  unfold bool_of_size_t. destruct (n =? 0) eqn:E; [discriminate|].
  intros _. now apply Z.eqb_neq.
Qed.

(** X7: a typed write that returns [true], followed by a typed read of the
    same key and type, returns [true] and the value written, whatever the
    default; for the three types. *)
Theorem set_then_get (s : CalibrationLib P) (k : cstr) :
  (forall v d,
      fst (setCalibrationValue_int s k v) = true ->
      getCalibrationValue_int (snd (setCalibrationValue_int s k v)) k d
      = (true, v, snd (setCalibrationValue_int s k v)))
  /\ (forall v d,
      fst (setCalibrationValue_float s k v) = true ->
      getCalibrationValue_float (snd (setCalibrationValue_float s k v)) k d
      = (true, v, snd (setCalibrationValue_float s k v)))
  /\ (forall text d,
      fst (setCalibrationValue_cstr s k (Some text)) = true ->
      getCalibrationValue_String
        (snd (setCalibrationValue_cstr s k (Some text))) k d
      = (true, text, snd (setCalibrationValue_cstr s k (Some text)))).
Proof.
  unfold setCalibrationValue_int, setCalibrationValue_float,
    setCalibrationValue_cstr, getCalibrationValue_int,
    getCalibrationValue_float, getCalibrationValue_String.
  destruct (_initialized s) eqn:I; cbn [negb];
    repeat apply conj; intros v d; try discriminate.
  - destruct (putInt _ _ _) as [n p] eqn:E. cbn [fst snd]. intros Hn.
    cbn. rewrite I. cbn [negb].
    destruct (putInt_getInt laws (_preferences s) k v d) as (G & K);
      rewrite E in *; cbn [fst snd] in *;
      [now apply bool_of_size_t_true|].
    now rewrite G, K.
  - destruct (putFloat _ _ _) as [n p] eqn:E. cbn [fst snd]. intros Hn.
    cbn. rewrite I. cbn [negb].
    destruct (putFloat_getFloat laws (_preferences s) k v d) as (G & K);
      rewrite E in *; cbn [fst snd] in *;
      [now apply bool_of_size_t_true|].
    now rewrite G, K.
  - destruct (putString _ _ _) as [n p] eqn:E. cbn [fst snd]. intros Hn.
    cbn. rewrite I. cbn [negb].
    destruct (putString_getString laws (_preferences s) k v
                (String_of_cstr d)) as (G & K);
      rewrite E in *; cbn [fst snd] in *;
      [now apply bool_of_size_t_true|].
    now rewrite G, K.
Qed.

(** X8: after [clearAllCalibrationValues] has returned [true], no key is
    present, the calibration counts as outdated against every version and
    as expired for every age; after [removeCalibrationValue] has returned
    [true], the key removed is absent. *)
Theorem clear_and_remove_forget (s : CalibrationLib P) :
  (fst (clearAllCalibrationValues s) = true ->
   let c := snd (clearAllCalibrationValues s) in
   (forall k, hasCalibrationValue c k = false)
   /\ (forall v, isCalibrationOutdated c v = (true, c))
   /\ (forall age now, isCalibrationExpired c age now = (true, c)))
  /\ (forall k,
        fst (removeCalibrationValue s k) = true ->
        hasCalibrationValue (snd (removeCalibrationValue s k)) k = false).
Proof.
  split.
  - unfold clearAllCalibrationValues.
    destruct (_initialized s) eqn:I; cbn [negb]; [|discriminate].
    destruct (pref_clear _) as [ok p] eqn:E. cbn [fst snd]. intros ->.
    assert (K : forall k, isKey p k = false).
    { intros k. pose proof (clear_isKey laws (_preferences s) k) as C.
      rewrite E in C. now apply C. }
    unfold hasCalibrationValue, isCalibrationOutdated, getCalibrationVersion,
      isCalibrationExpired, getCalibrationTimestamp.
    cbn. rewrite I. cbn [negb]. repeat split; intros; now rewrite K.
  - intros k. unfold removeCalibrationValue.
    destruct (_initialized s) eqn:I; cbn [negb]; [|discriminate].
    destruct (pref_remove _ _) as [ok p] eqn:E. cbn [fst snd]. intros ->.
    unfold hasCalibrationValue. cbn. rewrite I. cbn [negb].
    pose proof (remove_isKey laws (_preferences s) k) as C.
    rewrite E in C. now apply C.
Qed.

(** X9: after [setCalibrationVersion] has returned [true] for a version,
    [getCalibrationVersion] returns that version, and the calibration is
    outdated against exactly the versions that differ from it, compared as
    whole strings. *)
Theorem version_outdated_iff (s : CalibrationLib P) (v : string) :
  fst (setCalibrationVersion s (Some v)) = true ->
  let s' := snd (setCalibrationVersion s (Some v)) in
  getCalibrationVersion s' = (true, v, s')
  /\ isCalibrationOutdated s' (Some v) = (false, s')
  /\ (forall w, fst (isCalibrationOutdated s' (Some w)) = true <-> w <> v).
Proof.
  unfold setCalibrationVersion.
  destruct (_initialized s) eqn:I; cbn [negb]; [|discriminate].
  destruct (putString _ _ _) as [n p] eqn:E. cbn [fst snd]. intros Hn.
  destruct (putString_getString laws (_preferences s) (Some "_version") v
              EmptyString) as (G & K);
    rewrite E in *; cbn [fst snd] in *; [now apply bool_of_size_t_true|].
  unfold isCalibrationOutdated, getCalibrationVersion.
  cbn. rewrite I. cbn [negb]. rewrite G, K. cbn [negb].
  rewrite String.eqb_refl. repeat split.
  - cbn. intros Hw ->. now rewrite String.eqb_refl in Hw.
  - cbn. intros Hw. apply negb_true_iff. apply String.eqb_neq. congruence.
Qed.

(** X10: after [setCalibrationTimestamp] has returned [true], the stored
    time is the argument, or the clock when the argument is 0.  Read at
    clock time [now], the calibration is expired exactly when the age
    [now - stored], taken modulo [2 ^ 32], exceeds [maxAgeMs]: with the
    clock at or after the stored time that is [now - stored], and with the
    clock before it (a restart, a stored epoch) it is
    [now - stored + 2 ^ 32]. *)
Theorem timestamp_expiry (s : CalibrationLib P) (timestamp millis : Z) :
  fst (setCalibrationTimestamp s timestamp millis) = true ->
  let s' := snd (setCalibrationTimestamp s timestamp millis) in
  let stored := if timestamp =? 0 then millis else timestamp in
  getCalibrationTimestamp s' = (true, stored, s')
  /\ (forall maxAgeMs now,
        0 <= stored <= now -> now < 2 ^ 32 ->
        (fst (isCalibrationExpired s' maxAgeMs now) = true
         <-> maxAgeMs < now - stored))
  /\ (forall maxAgeMs now,
        0 <= now < stored -> stored < 2 ^ 32 ->
        (fst (isCalibrationExpired s' maxAgeMs now) = true
         <-> maxAgeMs < now - stored + 2 ^ 32)).
Proof.
  unfold setCalibrationTimestamp.
  destruct (_initialized s) eqn:I; cbn [negb]; [|discriminate].
  set (stored := if timestamp =? 0 then millis else timestamp).
  destruct (putULong _ _ _) as [n p] eqn:E. cbn [fst snd]. intros Hn.
  destruct (putULong_getULong laws (_preferences s) (Some "_timestamp")
              stored 0) as (G & K);
    rewrite E in *; cbn [fst snd] in *; [now apply bool_of_size_t_true|].
  unfold isCalibrationExpired, getCalibrationTimestamp.
  cbn. rewrite I. cbn [negb]. rewrite G, K. cbn [negb fst].
  repeat split; unfold wrap_ulong.
  - intros Hx. apply Z.ltb_lt in Hx.
    rewrite Z.mod_small in Hx by lia. exact Hx.
  - intros Hx. apply Z.ltb_lt. now rewrite Z.mod_small by lia.
  - intros Hx. apply Z.ltb_lt in Hx.
    replace (now - stored) with (now - stored + 2 ^ 32 + (-1) * 2 ^ 32)
      in Hx by lia.
    rewrite Z.mod_add, Z.mod_small in Hx by lia. exact Hx.
  - intros Hx. apply Z.ltb_lt.
    replace (now - stored) with (now - stored + 2 ^ 32 + (-1) * 2 ^ 32)
      by lia.
    now rewrite Z.mod_add, Z.mod_small by lia.
Qed.

End WriteThenRead.

(** ** Key validation *)

Lemma key_chars_valid_iff (k : string) :
  key_chars_valid k = true
  <-> forall c, In c (list_ascii_of_string k) ->
                isalnum c = true \/ c = "_"%char.
Proof.
  induction k as [|c k IH]; cbn [key_chars_valid list_ascii_of_string].
  - split; [intros _ c [] | reflexivity].
  - destruct (isalnum c) eqn:A; cbn [negb andb].
    + rewrite IH. split.
      * intros Hk c' [<- | Hin]; auto.
      * intros Hk c' Hin. apply Hk. now right.
    + destruct (Ascii.eqb c "_"%char) eqn:U; cbn [negb].
      * apply Ascii.eqb_eq in U. rewrite IH. split.
        -- intros Hk c' [<- | Hin]; auto.
        -- intros Hk c' Hin. apply Hk. now right.
      * apply Ascii.eqb_neq in U. split; [discriminate|].
        intros Hk. destruct (Hk c (or_introl eq_refl)); congruence.
Qed.

(** X11: [validateKey] accepts exactly the non-null keys of 1 to 15
    characters all of which are ASCII letters, digits or underscores. *)
Theorem validateKey_iff (key : cstr) :
  validateKey key = true
  <-> exists k,
        key = Some k /\ 1 <= strlen k <= 15
        /\ forall c, In c (list_ascii_of_string k) ->
                     isalnum c = true \/ c = "_"%char.
Proof.
  unfold validateKey. destruct key as [k|].
  - destruct ((strlen k =? 0) || (15 <? strlen k)) eqn:L.
    + split; [discriminate|]. intros (k' & [= <-] & Hlen & _).
      apply orb_true_iff in L. destruct L as [L | L];
        [apply Z.eqb_eq in L | apply Z.ltb_lt in L]; lia.
    + apply orb_false_iff in L. destruct L as (L0 & L15).
      apply Z.eqb_neq in L0. apply Z.ltb_ge in L15.
      rewrite key_chars_valid_iff. split.
      * intros Hc. exists k. repeat split; auto.
        unfold strlen in *. lia.
      * now intros (k' & [= <-] & _ & Hc).
  - split; [discriminate|]. now intros (k & [=] & _).
Qed.

(** ** More on the encryption wrapper *)

Lemma block_loop_overflow (f : list byte -> list byte) :
  (forall b, List.length b = 16%nat -> List.length (f b) = 16%nat) ->
  forall n i src dst,
    (i + 16 * n <= List.length src)%nat ->
    (i <= List.length dst)%nat ->
    (List.length dst < i + 16 * n)%nat ->
    block_loop f n i src dst = None.
Proof.
  intros Hf. induction n as [|n IH]; intros i src dst Hs Hi Hd; [lia|].
  cbn [block_loop].
  destruct ((i + 16 <=? List.length dst)%nat) eqn:E.
  - apply Nat.leb_le in E.
    replace ((i + 16 <=? List.length src)%nat) with true
      by (symmetry; apply Nat.leb_le; lia).
    cbn [andb].
    assert (L : List.length
                  (write_block dst i (f (firstn 16 (skipn i src))))
                = List.length dst).
    { apply write_block_length; [|exact E].
      apply Hf. rewrite length_firstn, length_skipn. lia. }
    apply IH; rewrite ?L; lia.
  - now rewrite andb_false_r.
Qed.

Lemma ecb_app (f : list byte -> list byte) (m : nat) :
  forall n x y,
    List.length x = (16 * m)%nat ->
    ecb f (m + n) (x ++ y) = ecb f m x ++ ecb f n y.
Proof.
  induction m as [|m IH]; intros n x y Hx.
  - destruct x; [reflexivity | discriminate].
  - cbn [Nat.add ecb].
    assert (H16 : (16 <= List.length x)%nat) by lia.
    rewrite firstn_app, skipn_app.
    replace (16 - List.length x)%nat with 0%nat by lia.
    rewrite firstn_O, skipn_O, app_nil_r.
    rewrite IH by (rewrite length_skipn; lia).
    now rewrite app_assoc.
Qed.

Section EncryptionMore.

Context {P : Type} `{PreferencesAPI P} `{ArduinoJsonAPI} `{M : MbedtlsAPI}.

Lemma enableEncryption_frame (s : CalibrationLib P) pw :
  _preferences (snd (enableEncryption s pw)) = _preferences s
  /\ _initialized (snd (enableEncryption s pw)) = _initialized s
  /\ _batchMode (snd (enableEncryption s pw)) = _batchMode s.
Proof.
  unfold enableEncryption.
  destruct pw as [k|]; [destruct (_ <? _)|]; cbn [fst snd];
    match goal with
    | |- context [setError ?s1 ?e] =>
        destruct (setError_frame s1 e) as ((Pf & I & _) & _ & B & _); auto
    | |- context [log ?s1 ?l ?m] =>
        destruct (log_frame s1 l m) as ((Pf & I & _) & _ & B & _);
        rewrite Pf, I, B; cbn; auto
    end.
Qed.

(** X12: the typed accessors ignore encryption.  With encryption enabled,
    whatever the passphrase, every typed write returns what it returns
    without and leaves the same store, and every typed read returns the same
    flag and value: what is stored is the value as given. *)
Theorem storage_ignores_encryption (s : CalibrationLib P) (pw k : cstr) :
  let e := snd (enableEncryption s pw) in
  (forall v,
      fst (setCalibrationValue_int e k v)
      = fst (setCalibrationValue_int s k v)
      /\ _preferences (snd (setCalibrationValue_int e k v))
         = _preferences (snd (setCalibrationValue_int s k v)))
  /\ (forall v,
      fst (setCalibrationValue_float e k v)
      = fst (setCalibrationValue_float s k v)
      /\ _preferences (snd (setCalibrationValue_float e k v))
         = _preferences (snd (setCalibrationValue_float s k v)))
  /\ (forall v,
      fst (setCalibrationValue_cstr e k v)
      = fst (setCalibrationValue_cstr s k v)
      /\ _preferences (snd (setCalibrationValue_cstr e k v))
         = _preferences (snd (setCalibrationValue_cstr s k v)))
  /\ (forall d, fst (getCalibrationValue_int e k d)
                = fst (getCalibrationValue_int s k d))
  /\ (forall d, fst (getCalibrationValue_float e k d)
                = fst (getCalibrationValue_float s k d))
  /\ (forall d, fst (getCalibrationValue_String e k d)
                = fst (getCalibrationValue_String s k d)).
Proof.
  cbv zeta.
  destruct (enableEncryption_frame s pw) as (Pf & I & _).
  unfold setCalibrationValue_int, setCalibrationValue_float,
    setCalibrationValue_cstr, getCalibrationValue_int,
    getCalibrationValue_float, getCalibrationValue_String.
  rewrite I.
  destruct (_initialized s); cbn [negb]; repeat apply conj; intros v;
    rewrite ?Pf;
    try destruct (putInt _ _ _); try destruct (putFloat _ _ _);
    try destruct (putString _ _ _); cbn; auto.
Qed.

(** X13: [disableEncryption] always returns [true] and leaves encryption
    off; when it was on, the key is overwritten with 32 zero bytes; when it
    was off, nothing changes.  Afterwards [encryptData] and [decryptData]
    return [false], record [CAL_ENCRYPTION_ERROR] and leave the output
    buffer and the size parameter as they were. *)
Theorem disableEncryption_forgets (s : CalibrationLib P) :
  let d := snd (disableEncryption s) in
  fst (disableEncryption s) = true
  /\ _encryptionEnabled d = false
  /\ (_encryptionEnabled s = true -> _encryptionKey d = repeat x00 32)
  /\ (_encryptionEnabled s = false -> d = s)
  /\ _preferences d = _preferences s
  /\ _lastError d = _lastError s
  /\ (forall data size enc n,
        encryptData d data size enc n
        = Returns (false, enc, n, setError d CAL_ENCRYPTION_ERROR))
  /\ (forall enc n data size,
        decryptData d enc n data size
        = Returns (false, data, size, setError d CAL_ENCRYPTION_ERROR)).
Proof.
  cbv zeta.
  assert (E : _encryptionEnabled (snd (disableEncryption s)) = false).
  { unfold disableEncryption.
    destruct (_encryptionEnabled s) eqn:En; cbn [negb snd]; [|exact En].
    match goal with
    | |- context [log ?s1 ?l ?m] =>
        destruct (log_frame s1 l m) as ((_ & _ & _ & F & _) & _)
    end.
    now rewrite F. }
  repeat apply conj.
  - unfold disableEncryption. now destruct (negb _).
  - exact E.
  - intros En. unfold disableEncryption. rewrite En. cbn [negb snd].
    match goal with
    | |- context [log ?s1 ?l ?m] =>
        destruct (log_frame s1 l m) as ((_ & _ & K & _) & _)
    end.
    now rewrite K.
  - intros En. unfold disableEncryption. now rewrite En.
  - unfold disableEncryption. destruct (negb _); cbn [snd]; [reflexivity|].
    match goal with
    | |- context [log ?s1 ?l ?m] =>
        destruct (log_frame s1 l m) as ((Pf & _) & _)
    end.
    now rewrite Pf.
  - unfold disableEncryption. destruct (negb _); cbn [snd]; [reflexivity|].
    match goal with
    | |- context [log ?s1 ?l ?m] =>
        destruct (log_frame s1 l m) as (_ & L & _)
    end.
    now rewrite L.
  - intros data size enc n. unfold encryptData. now rewrite E.
  - intros enc n data size. unfold decryptData, decrypt_rejects.
    now rewrite E.
Qed.

(** X14: when [encryptData] returns, either it returns [true], the state
    is untouched and the size it reports is the input size rounded up to
    the next multiple of 16 strictly above it (so 16 more for an aligned
    input); or it returns [false], encryption was off or a pointer null,
    the output buffer and [encSize] are as they were and
    [CAL_ENCRYPTION_ERROR] is recorded. *)
Theorem encryptData_reports_padded_size (s : CalibrationLib P)
  (data enc : buffer) (size n : Z) (ok : bool) (enc' : buffer) (n' : Z)
  (s' : CalibrationLib P) :
  0 <= size -> size + 16 < size_t_max ->
  encryptData s data size enc n = Returns (ok, enc', n', s') ->
  (ok = true ->
   s' = s /\ n' mod 16 = 0 /\ size < n' <= size + 16
   /\ n' = 16 * (size / 16) + 16)
  /\ (ok = false ->
      enc' = enc /\ n' = n /\ _lastError s' = CAL_ENCRYPTION_ERROR
      /\ (_encryptionEnabled s = false \/ data = None \/ enc = None)).
Proof.
  intros Hsize Hmax. unfold encryptData.
  set (total := wrap_size_t (size + (16 - size mod 16))).
  assert (Ht : total = size + (16 - size mod 16)).
  { unfold total, wrap_size_t, size_t_max in *. apply Z.mod_small. lia. }
  clearbody total.
  destruct (_encryptionEnabled s), data as [src|], enc as [dst|];
    try (intros R; inversion R; subst; split; [discriminate|]; intros _;
         destruct (setError_frame s CAL_ENCRYPTION_ERROR) as (_ & L & _);
         repeat split; auto).
  destruct (_ || _); [discriminate|].
  destruct (block_loop _ _ _ _ _); [|discriminate].
  intros R; inversion R; subst. split; [intros _ | discriminate].
  repeat split; lia.
Qed.

Hypothesis laws : MbedtlsLaws M.

(** X15: [encryptData] does not test the capacity of the output buffer:
    when the buffer is shorter than the padded size, the block loop writes
    past its end. *)
Theorem encryptData_overflows_short_buffer (s : CalibrationLib P)
  (x out : list byte) (n : Z) :
  _encryptionEnabled s = true ->
  Z.of_nat (List.length x) + 16 < size_t_max ->
  Z.of_nat (List.length out) < cipher_size (Z.of_nat (List.length x)) ->
  encryptData s (Some x) (Z.of_nat (List.length x)) (Some out) n
  = OutOfBounds.
Proof.
  intros En Hmax Hout.
  pose proof (padded_length x) as HP.
  pose proof (cipher_size_blocks (Z.of_nat (List.length x))) as HB.
  unfold encryptData. rewrite En.
  fold (pad_length (Z.of_nat (List.length x))).
  fold (cipher_size (Z.of_nat (List.length x))).
  unfold wrap_size_t.
  rewrite Z.mod_small
    by (unfold cipher_size, pad_length, size_t_max in *; lia).
  replace (cipher_size _ <? _) with false
    by (symmetry; apply Z.ltb_ge; unfold cipher_size, pad_length; lia).
  replace (Z.of_nat (List.length x) <? Z.of_nat (List.length x)) with false
    by (symmetry; apply Z.ltb_ge; lia).
  cbn [orb].
  rewrite Nat2Z.id, firstn_all. fold (padded x).
  rewrite (block_loop_overflow _ (aes_encrypt_length laws _)) by lia.
  reflexivity.
Qed.

(** X16: of the decrypted text [decryptData] examines the last byte only.
    For a positive size that is a multiple of 16 and within the input
    buffer: if that byte is above 16 the call returns [false] with
    [CAL_ENCRYPTION_ERROR] and leaves the output alone; otherwise it takes
    the byte as the padding length, whatever the bytes before it (0
    included, which keeps the whole text), and copies the rest to the
    output, past the end of the output buffer when that is too short. *)
Theorem decryptData_trusts_last_byte (s : CalibrationLib P)
  (src out : list byte) (encSize n : Z) :
  _encryptionEnabled s = true ->
  0 < encSize < size_t_max -> encSize mod 16 = 0 ->
  encSize <= Z.of_nat (List.length src) ->
  let text :=
    ecb (mbedtls_aes_decrypt (_encryptionKey s)) (Z.to_nat (encSize / 16))
      src in
  exists last,
    nth_error text (Z.to_nat (encSize - 1)) = Some last
    /\ decryptData s (Some src) encSize (Some out) n
       = if 16 <? Z_of_byte last
         then Returns (false, Some out, n, setError s CAL_ENCRYPTION_ERROR)
         else if Z.of_nat (List.length out) <? encSize - Z_of_byte last
              then OutOfBounds
              else Returns (true,
                            Some (firstn (Z.to_nat (encSize - Z_of_byte last))
                                    text
                                  ++ skipn
                                       (Z.to_nat (encSize - Z_of_byte last))
                                       out),
                            encSize - Z_of_byte last, s).
Proof.
  intros En Hrange Hmod Hsrc. cbv zeta.
  destruct (decrypt_loop_returns laws (_encryptionKey s) src encSize)
    as (Hloop & Hlen); [lia | exact Hmod | exact Hsrc |].
  destruct (buffer_at_last _ encSize (proj1 Hrange) Hlen (proj2 Hrange))
    as (last & Hat & Hnth).
  exists last. split; [exact Hnth|].
  unfold decryptData, decrypt_rejects. rewrite En, Hmod.
  cbn [negb orb Z.eqb]. rewrite Hloop, Hat.
  destruct (16 <? Z_of_byte last) eqn:Hpad; [reflexivity|].
  apply Z.ltb_ge in Hpad.
  assert (Hb : 0 <= Z_of_byte last) by (unfold Z_of_byte; lia).
  unfold wrap_size_t. rewrite Z.mod_small by (unfold size_t_max in *; lia).
  reflexivity.
Qed.

(** X17: blocks are encrypted one by one.  When [x] is a multiple of 16
    bytes long, the ciphertext of [x ++ y] begins with the same
    [length x] bytes as the ciphertext of [x] alone. *)
Theorem encryptData_prefix_leaks (s : CalibrationLib P)
  (x y out1 out2 : list byte) (e1 e2 : Z) :
  _encryptionEnabled s = true ->
  Z.of_nat (List.length x) mod 16 = 0 ->
  Z.of_nat (List.length (x ++ y)) + 16 < size_t_max ->
  Z.of_nat (List.length (x ++ y)) + 16 <= Z.of_nat (List.length out1) ->
  Z.of_nat (List.length x) + 16 <= Z.of_nat (List.length out2) ->
  exists c1 c2 n1 n2,
    encryptData s (Some (x ++ y)) (Z.of_nat (List.length (x ++ y)))
      (Some out1) e1
    = Returns (true, Some c1, n1, s)
    /\ encryptData s (Some x) (Z.of_nat (List.length x)) (Some out2) e2
       = Returns (true, Some c2, n2, s)
    /\ firstn (List.length x) c1 = firstn (List.length x) c2.
Proof.
  intros En Hal Hmax Hout1 Hout2.
  assert (Hxy : Z.of_nat (List.length x) <= Z.of_nat (List.length (x ++ y)))
    by (rewrite length_app; lia).
  assert (Hcs : forall z, cipher_size z <= z + 16)
    by (intros z; unfold cipher_size, pad_length; lia).
  eexists _, _, _, _. split; [|split].
  - apply (encryptData_returns laws); [exact En | | ].
    + specialize (Hcs (Z.of_nat (List.length (x ++ y)))). lia.
    + specialize (Hcs (Z.of_nat (List.length (x ++ y)))). lia.
  - apply (encryptData_returns laws); [exact En | | ].
    + specialize (Hcs (Z.of_nat (List.length x))). lia.
    + specialize (Hcs (Z.of_nat (List.length x))). lia.
  - set (k := _encryptionKey s).
    set (m := Z.to_nat (Z.of_nat (List.length x) / 16)).
    assert (Hm : List.length x = (16 * m)%nat) by (unfold m; lia).
    assert (Hc : forall z, exists R,
               ciphertext k (x ++ z)
               = ecb (mbedtls_aes_encrypt k) m x ++ R).
    { intros z. unfold ciphertext, padded. rewrite <- app_assoc.
      set (total := cipher_size (Z.of_nat (List.length (x ++ z)))).
      assert (N : Z.to_nat (total / 16)
                  = (m + (Z.to_nat (total / 16) - m))%nat).
      { unfold total, cipher_size, pad_length, m.
        rewrite length_app. lia. }
      rewrite N, (ecb_app _ m _ x _ Hm). now eexists. }
    assert (Hl : List.length (ecb (mbedtls_aes_encrypt k) m x)
                 = List.length x).
    { rewrite (ecb_length _ (aes_encrypt_length laws k)); lia. }
    destruct (Hc y) as (R1 & ->). destruct (Hc []) as (R2 & E2).
    rewrite app_nil_r in E2. rewrite E2.
    rewrite <- !app_assoc.
    now rewrite !(firstn_app_exact _ _ (List.length x)) by exact Hl.
Qed.

End EncryptionMore.

(** ** More on the JSON methods *)





Section JsonMore.

Context {P : Type} `{PreferencesAPI P} `{ArduinoJsonAPI} `{MbedtlsAPI}.





Lemma set_int_same_but_store (s : CalibrationLib P) k v :
  same_but_store s (snd (setCalibrationValue_int s k v)).
Proof.
  unfold setCalibrationValue_int, same_but_store.
  destruct (negb _); [|destruct (putInt _ _ _)]; cbn; repeat split.
Qed.

Lemma set_float_same_but_store (s : CalibrationLib P) k v :
  same_but_store s (snd (setCalibrationValue_float s k v)).
Proof.
  unfold setCalibrationValue_float, same_but_store.
  destruct (negb _); [|destruct (putFloat _ _ _)]; cbn; repeat split.
Qed.

Lemma set_cstr_same_but_store (s : CalibrationLib P) k v :
  same_but_store s (snd (setCalibrationValue_cstr s k v)).
Proof.
  unfold setCalibrationValue_cstr, same_but_store.
  destruct (negb _); [|destruct (putString _ _ _)]; cbn; repeat split.
Qed.

Lemma same_but_store_trans (s1 s2 s3 : CalibrationLib P) :
  same_but_store s1 s2 -> same_but_store s2 s3 -> same_but_store s1 s3.
Proof. unfold same_but_store. intuition congruence. Qed.

Lemma same_but_store_refl (s : CalibrationLib P) : same_but_store s s.
Proof. unfold same_but_store. intuition. Qed.

Lemma import_loop_same_but_store :
  forall (ms : JsonObject) (s : CalibrationLib P),
    same_but_store s (fold_left import_pair ms s).
Proof.
  induction ms as [|[k v] ms IH]; intros s; cbn [fold_left].
  - apply same_but_store_refl.
  - eapply same_but_store_trans; [|apply IH].
    unfold import_pair.
    destruct (is_int v); [apply set_int_same_but_store|].
    destruct (is_float v); [apply set_float_same_but_store|].
    destruct (is_cstr v); [apply set_cstr_same_but_store|].
    apply same_but_store_refl.
Qed.

(** X19: [importFromJson] changes the store and nothing else: the open
    flag, the last error, the batch flag, the key and the debug sink stay
    as they are.  It returns [true] exactly when the accessor is open and
    the text parses, whatever the writes return; and when the document
    parsed is not an object, it returns [true] and writes nothing. *)
Theorem importFromJson_frame (s : CalibrationLib P) (json : string) :
  same_but_store s (snd (importFromJson s json))
  /\ fst (importFromJson s json)
     = _initialized s
       && match deserializeJson JSON_DOC_CAPACITY json with
          | Some _ => true
          | None => false
          end
  /\ (forall doc,
        _initialized s = true ->
        deserializeJson JSON_DOC_CAPACITY json = Some doc ->
        (forall members, doc <> JObject members) ->
        importFromJson s json = (true, s)).
Proof.
  unfold importFromJson.
  destruct (_initialized s); cbn [negb andb].
  - destruct (deserializeJson _ _) as [doc|]; cbn [fst snd].
    + split; [apply import_loop_same_but_store | split; [reflexivity|]].
      intros doc' _ [= <-] Hshape.
      destruct doc; try reflexivity. now destruct (Hshape members).
    + split; [apply same_but_store_refl | split; [reflexivity|]].
      discriminate.
  - split; [apply same_but_store_refl | split; [reflexivity|]].
    discriminate.
Qed.

End JsonMore.

(** ** The further properties on concrete inputs *)

(** Writing offset = 42 on the reference store, then reading it. *)
Lemma set_then_get_witness :
  getCalibrationValue_int
    (snd (setCalibrationValue_int opened (Some "offset") 42))
    (Some "offset") 0
  = (true, 42, snd (setCalibrationValue_int opened (Some "offset") 42)).
Proof.
  refine (proj1 (set_then_get Nvs_laws opened (Some "offset")) 42 0 _).
  vm_compute. reflexivity.
Defined.

(** Clearing the namespace of the scenario. *)
Lemma clear_and_remove_forget_witness :
  hasCalibrationValue (snd (clearAllCalibrationValues (scenario 100)))
    (Some "offset")
  = false.
Proof.
  refine (proj1 (proj1 (clear_and_remove_forget Nvs_laws (scenario 100)) _)
            (Some "offset")).
  vm_compute. reflexivity.
Defined.

(** Version "1.0.0" written on the reference store. *)
Lemma version_outdated_iff_witness :
  isCalibrationOutdated
    (snd (setCalibrationVersion opened (Some "1.0.0"))) (Some "1.0.0")
  = (false, snd (setCalibrationVersion opened (Some "1.0.0"))).
Proof.
  refine (proj1 (proj2 (version_outdated_iff Nvs_laws opened "1.0.0" _))).
  vm_compute. reflexivity.
Defined.

(** A calibration stamped at 1000 ms, read at 1200 ms and, after a restart
    of the clock, at 200 ms. *)
Lemma timestamp_expiry_witness :
  (fst (isCalibrationExpired (snd (setCalibrationTimestamp opened 1000 5))
          500 1200) = true
   <-> 500 < 1200 - (if 1000 =? 0 then 5 else 1000))
  /\ (fst (isCalibrationExpired (snd (setCalibrationTimestamp opened 1000 5))
             500 200) = true
      <-> 500 < 200 - (if 1000 =? 0 then 5 else 1000) + 2 ^ 32).
Proof.
  assert (W : fst (setCalibrationTimestamp opened 1000 5) = true)
    by (vm_compute; reflexivity).
  destruct (timestamp_expiry Nvs_laws opened 1000 5 W) as (_ & A & B).
  split.
  - apply (A 500 1200); [vm_compute; split; discriminate|].
    vm_compute. reflexivity.
  - apply (B 500 200); [vm_compute; split; [discriminate | reflexivity]|].
    vm_compute. reflexivity.
Defined.

(** One block encrypted into a buffer of 32 bytes. *)
Lemma encryptData_reports_padded_size_witness :
  exists enc' n',
    encryptData keyed (Some one_block) (Z.of_nat (List.length one_block))
      (Some (repeat x00 32)) 0
    = Returns (true, enc', n', keyed)
    /\ n' mod 16 = 0
    /\ Z.of_nat (List.length one_block) < n'
       <= Z.of_nat (List.length one_block) + 16.
Proof.
  assert (E : encryptData keyed (Some one_block)
                (Z.of_nat (List.length one_block)) (Some (repeat x00 32)) 0
              = Returns
                  (true,
                   Some (ciphertext (_encryptionKey keyed) one_block
                         ++ skipn
                              (List.length
                                 (ciphertext (_encryptionKey keyed) one_block))
                              (repeat x00 32)),
                   cipher_size (Z.of_nat (List.length one_block)), keyed)).
  { apply (encryptData_returns SoftCrypto_laws).
    - vm_compute. reflexivity.
    - vm_compute. reflexivity.
    - vm_compute. discriminate. }
  assert (H0 : 0 <= Z.of_nat (List.length one_block))
    by (vm_compute; discriminate).
  assert (H1 : Z.of_nat (List.length one_block) + 16 < size_t_max)
    by (vm_compute; reflexivity).
  destruct (encryptData_reports_padded_size keyed (Some one_block)
              (Some (repeat x00 32)) (Z.of_nat (List.length one_block)) 0
              true _ _ keyed H0 H1 E) as (T & _).
  destruct (T eq_refl) as (_ & M16 & R & _).
  eexists _, _. split; [exact E | split; [exact M16 | exact R]].
Defined.

(** One block encrypted into a buffer of 16 bytes, 16 short. *)
Lemma encryptData_overflows_short_buffer_witness :
  encryptData keyed (Some one_block) (Z.of_nat (List.length one_block))
    (Some (repeat x00 16)) 0
  = OutOfBounds.
Proof.
  apply (encryptData_overflows_short_buffer SoftCrypto_laws).
  - vm_compute. reflexivity.
  - vm_compute. reflexivity.
  - vm_compute. reflexivity.
Defined.

(** Sixteen arbitrary bytes taken as a ciphertext. *)
Lemma decryptData_trusts_last_byte_witness :
  let text :=
    ecb (mbedtls_aes_decrypt (_encryptionKey keyed)) (Z.to_nat (16 / 16))
      one_block in
  exists last,
    nth_error text (Z.to_nat (16 - 1)) = Some last
    /\ decryptData keyed (Some one_block) 16 (Some (repeat x00 16)) 0
       = if 16 <? Z_of_byte last
         then Returns (false, Some (repeat x00 16), 0,
                       setError keyed CAL_ENCRYPTION_ERROR)
         else if Z.of_nat (List.length (repeat x00 16))
                 <? 16 - Z_of_byte last
              then OutOfBounds
              else Returns (true,
                            Some (firstn (Z.to_nat (16 - Z_of_byte last)) text
                                  ++ skipn (Z.to_nat (16 - Z_of_byte last))
                                       (repeat x00 16)),
                            16 - Z_of_byte last, keyed).
Proof.
  apply (decryptData_trusts_last_byte SoftCrypto_laws keyed one_block
           (repeat x00 16) 16 0).
  - vm_compute. reflexivity.
  - vm_compute. split; reflexivity.
  - vm_compute. reflexivity.
  - vm_compute. discriminate.
Defined.

(** Two equal blocks against one. *)
Lemma encryptData_prefix_leaks_witness :
  exists c1 c2 n1 n2,
    encryptData keyed (Some (one_block ++ one_block))
      (Z.of_nat (List.length (one_block ++ one_block)))
      (Some (repeat x00 48)) 0
    = Returns (true, Some c1, n1, keyed)
    /\ encryptData keyed (Some one_block)
         (Z.of_nat (List.length one_block)) (Some (repeat x00 32)) 0
       = Returns (true, Some c2, n2, keyed)
    /\ firstn (List.length one_block) c1
       = firstn (List.length one_block) c2.
Proof.
  apply (encryptData_prefix_leaks SoftCrypto_laws keyed one_block one_block
           (repeat x00 48) (repeat x00 32) 0 0).
  - vm_compute. reflexivity.
  - vm_compute. reflexivity.
  - vm_compute. reflexivity.
  - vm_compute. discriminate.
  - vm_compute. discriminate.
Defined.

